(** * ChatKitPanel: client-tool dispatch and widget-action routing

    A shallow embedding of the two event handlers that the chat panel
    installs on ChatKit ([onClientTool], [widgets.onAction]) together with
    [onThreadChange], and proofs about de-duplication of recorded facts,
    parameter coercion, navigation fallback and error handling.

    The repository holds two copies of the panel.  Module [Panel] follows
    the copy with local widget handlers and the new-tab navigation
    (unnamed part 000); module [Legacy] follows
    frontend/src/components/ChatKitPanel.tsx, whose [record_fact] and
    [switch_theme] branches are the same text. *)

From Stdlib Require Import Ascii String.
From stdpp Require Import gmap strings list pretty.

Set Warnings "-register-all".

(** ** JavaScript values

    Tool parameters and widget payloads arrive as parsed JSON, so a value
    is [undefined] (an absent property), [null], a boolean, a number, a
    string, an array or an object.  [JsNumber n] stands for the integer
    [n] as long as a double holds it exactly and prints it in full, that
    is up to 2^53 in absolute value; strings are sequences of code units
    below 256, one [ascii] each. *)

Inductive JsValue : Type :=
| JsUndefined
| JsNull
| JsBool (b : bool)
| JsNumber (n : Z)
| JsString (s : string)
| JsArray (elems : list JsValue)
| JsObject (fields : gmap string JsValue).

(** [a ?? b] *)
Definition nullish (a b : JsValue) : JsValue :=
  match a with
  | JsUndefined | JsNull => b
  | _ => a
  end.

Infix "??" := nullish (at level 45, left associativity).

(** [Boolean(v)], also the test of [if (v)] and [v || w]. *)
Definition to_Boolean (v : JsValue) : bool :=
  match v with
  | JsUndefined | JsNull => false
  | JsBool b => b
  | JsNumber n => negb (n =? 0)%Z
  | JsString s => negb (String.eqb s "")
  | JsArray _ | JsObject _ => true
  end.

Definition join_with (sep : string) (parts : list string) : string :=
  String.concat sep parts.

(** What [v] prints as, when its conversion to a string completes (see
    [converts] and [js_String] for the call [String(v)] itself).  An
    array prints its elements separated by commas, with [null] and
    [undefined] elements printed as nothing; a plain object prints as
    ["[object Object]"]. *)
Fixpoint to_String (v : JsValue) : string :=
  match v with
  | JsUndefined => "undefined"
  | JsNull => "null"
  | JsBool true => "true"
  | JsBool false => "false"
  | JsNumber n => pretty n
  | JsString s => s
  | JsArray elems =>
      join_with ","
        (map (fun e => match e with
                       | JsUndefined | JsNull => ""
                       | _ => to_String e
                       end) elems)
  | JsObject _ => "[object Object]"
  end.

(** Whether the conversion of [v] to a string completes.  A parsed
    object inherits a callable [toString] unless it has an own property
    of that name, whose value is then no function; [valueOf] gives the
    object back, so the conversion ends in a [TypeError].  An array
    converts when each of its elements does. *)
Fixpoint converts (v : JsValue) : bool :=
  match v with
  | JsArray elems => forallb converts elems
  | JsObject o =>
      match o !! "toString" with
      | Some _ => false
      | None => true
      end
  | _ => true
  end.

(** [v === "lit"] for a string literal. *)
Definition strict_eq_str (v : JsValue) (lit : string) : bool :=
  match v with
  | JsString s => String.eqb s lit
  | _ => false
  end.

(** [o.k] on an object that is known to exist. *)
Definition prop (o : gmap string JsValue) (k : string) : JsValue :=
  default JsUndefined (o !! k).

(** [v?.k]: [undefined] when [v] is nullish, the property otherwise.
    Only objects carry own properties in this model. *)
Definition optional_prop (v : JsValue) (k : string) : JsValue :=
  match v with
  | JsObject o => prop o k
  | _ => JsUndefined
  end.

(** ** Strings: [replace(/\s+/g, " ")], [trim()], [split("/").pop()] *)

(** The class [\s], which is also what [trim] strips: tab, line feed,
    vertical tab, form feed, carriage return, space and no-break space. *)
Definition is_whitespace (c : ascii) : bool :=
  let n := N_of_ascii c in
  ((9 <=? n)%N && (n <=? 13)%N) || (n =? 32)%N || (n =? 160)%N.

(** [s.replace(/\s+/g, " ")]: scanning left to right, each match of
    [\s+] is a maximal run and is replaced by one space.  [in_run] tells
    that the previous character belonged to the current match. *)
Fixpoint replace_ws_go (in_run : bool) (s : string) : string :=
  match s with
  | EmptyString => EmptyString
  | String c s' =>
      if is_whitespace c then
        if in_run then replace_ws_go true s'
        else String " " (replace_ws_go true s')
      else String c (replace_ws_go false s')
  end.

Definition replace_ws (s : string) : string := replace_ws_go false s.

Fixpoint trimStart (s : string) : string :=
  match s with
  | EmptyString => EmptyString
  | String c s' => if is_whitespace c then trimStart s' else s
  end.

Fixpoint trimEnd (s : string) : string :=
  match s with
  | EmptyString => EmptyString
  | String c s' =>
      match trimEnd s' with
      | EmptyString => if is_whitespace c then EmptyString else String c EmptyString
      | t => String c t
      end
  end.

Definition trim (s : string) : string := trimEnd (trimStart s).

(** [pathname.split("/").pop()]: what follows the last slash. *)
Fixpoint last_segment_go (cur s : string) : string :=
  match s with
  | EmptyString => cur
  | String c s' =>
      if Ascii.eqb c "/" then last_segment_go "" s'
      else last_segment_go (cur +:+ String c "") s'
  end.

Definition last_segment (s : string) : string := last_segment_go "" s.

(** [a || b] on strings: the empty string is falsy. *)
Definition str_or (a b : string) : string :=
  if String.eqb a "" then b else a.

(** ** Data of the two handlers *)

Record ToolInvocation := {
  name : string;
  params : gmap string JsValue
}.

(** What [onClientTool] resolves with: [{ success: b }]. *)
Record ToolResult := { success : bool }.

(** The argument of the injected [onWidgetAction] callback. *)
Record FactAction := {
  fa_type : string;
  factId : string;
  factText : string
}.

Record WidgetAction := {
  action_type : string;
  payload : JsValue
}.

Record WidgetItem := { item_id : string }.

(** A thrown value, or the reason of a rejected promise. *)
Record JsError := { message : string }.

Inductive Completion (A : Type) : Type :=
| Normal (a : A)
| Throw (e : JsError).
Arguments Normal {A} a.
Arguments Throw {A} e.

Definition type_error : JsError :=
  {| message := "Cannot convert object to primitive value" |}.

(** [String(v)]: the printed form, or the [TypeError] of a value that
    does not convert. *)
Definition js_String (v : JsValue) : Completion string :=
  if converts v then Normal (to_String v) else Throw type_error.

(** ** The world outside the handlers *)

Inductive Level := Debug | Log | Warn | Error.

Record Link := {
  href : string;
  target : string;
  rel : string;
  display : string;
  download : string
}.

(** The body handed to [fetch]: [JSON.stringify({ action, itemId })],
    kept as the pair that is serialised. *)
Record RelayBody := {
  body_action : WidgetAction;
  body_itemId : string
}.

Record Request := {
  req_url : string;
  req_method : string;
  req_headers : list (string * string);
  req_body : option RelayBody
}.

Record Blob := { blob_size : Z }.

Record Response := {
  ok : bool;
  status : Z;
  response_json : Completion JsValue;
  response_blob : Completion Blob
}.

Inductive WindowProxy := NewWindow.

(** Every operation a handler performs on something outside itself, in
    program order: console output (the first argument of the call), the
    changes of the shared set [processedFacts.current], the callbacks
    injected by the host, and the calls into the browser. *)
Inductive Effect :=
| Console (lvl : Level) (msg : string)
| SetAdd (id : string)
| SetClear
| ThemeRequest (scheme : JsValue)
| WidgetActionCall (a : FactAction)
| ResponseEnd
| WindowOpen (url target features : string)
| WindowFocus
| LocationAssign (url : string)
| AppendChild (l : Link)
| Click (l : Link)
| RemoveChild (l : Link)
| Fetch (req : Request)
| CreateObjectURL (b : Blob)
| RevokeObjectURL (blobUrl : string)
| Alert (msg : string).

(** How the browser and the network answer during one handler call. *)
Record Env := {
  DEV : bool;
  window_open : string -> Completion (option WindowProxy);
  location_assign : string -> Completion unit;
  fetch : Request -> Completion Response;
  createObjectURL : Blob -> string;
  URL_pathname : string -> Completion string
}.

(** ** A state, writer and exception monad

    The state is [processedFacts.current], the written output is the list
    of effects, and a computation either completes with a value or throws.
    An [async] handler that throws rejects its promise; [await] of a
    rejected promise throws. *)

Record Outcome (A : Type) := {
  result : Completion A;
  facts : gset string;
  effects : list Effect
}.
Arguments result {A} o.
Arguments facts {A} o.
Arguments effects {A} o.

Definition M (A : Type) : Type := gset string -> Outcome A.

Definition ret {A} (a : A) : M A :=
  fun s => {| result := Normal a; facts := s; effects := [] |}.

Definition throw {A} (e : JsError) : M A :=
  fun s => {| result := Throw e; facts := s; effects := [] |}.

(** [t] happened first, then what [o] tells. *)
Definition after {A} (t : list Effect) (o : Outcome A) : Outcome A :=
  match o with
  | {| result := r; facts := s; effects := t' |} =>
      {| result := r; facts := s; effects := t ++ t' |}
  end.

Definition bind {A B} (m : M A) (f : A -> M B) : M B :=
  fun s =>
    match m s with
    | {| result := Normal a; facts := s'; effects := t |} => after t (f a s')
    | {| result := Throw e; facts := s'; effects := t |} =>
        {| result := Throw e; facts := s'; effects := t |}
    end.

(** [try { m } catch (error) { h error }] *)
Definition try_catch {A} (m : M A) (h : JsError -> M A) : M A :=
  fun s =>
    match m s with
    | {| result := Normal a; facts := s'; effects := t |} =>
        {| result := Normal a; facts := s'; effects := t |}
    | {| result := Throw e; facts := s'; effects := t |} => after t (h e s')
    end.

Global Instance M_ret : MRet M := @ret.
Global Instance M_bind : MBind M := fun A B f m => bind m f.

Definition emit (e : Effect) : M unit :=
  fun s => {| result := Normal tt; facts := s; effects := [e] |}.

(** The answer of the environment to a call just made. *)
Definition answer {A} (c : Completion A) : M A :=
  fun s => {| result := c; facts := s; effects := [] |}.

Definition when (b : bool) (m : M unit) : M unit :=
  if b then m else ret tt.

Definition console (lvl : Level) (msg : string) : M unit :=
  emit (Console lvl msg).

(** [processedFacts.current.has(id)], [.add(id)] and [.clear()] *)
Definition set_has (id : string) : M bool :=
  fun s => {| result := Normal (bool_decide (id ∈ s)); facts := s; effects := [] |}.

Definition set_add (id : string) : M unit :=
  fun s => {| result := Normal tt; facts := {[ id ]} ∪ s; effects := [SetAdd id] |}.

Definition set_clear : M unit :=
  fun _ => {| result := Normal tt; facts := ∅; effects := [SetClear] |}.

(** ** Calls into the environment *)

Section browser.
Variable env : Env.

(** [window.open(url, target, features)] *)
Definition window_open_call (url target features : string)
  : M (option WindowProxy) :=
  emit (WindowOpen url target features);;
  answer (window_open env url).

(** [window.location.href = url] *)
Definition set_location_href (url : string) : M unit :=
  emit (LocationAssign url);;
  answer (location_assign env url).

(** [await fetch(...)] *)
Definition fetch_call (req : Request) : M Response :=
  emit (Fetch req);;
  answer (fetch env req).

(** The request of [fetch(url)] in the download branch. *)
Definition image_request (url : JsValue) : Request :=
  {| req_url := to_String url; req_method := "GET";
     req_headers := []; req_body := None |}.

(** The relay request of [widgets.onAction]. *)
Definition relay_request (action : WidgetAction) (item : WidgetItem) : Request :=
  {| req_url := "/api/widget-action";
     req_method := "POST";
     req_headers := [("Content-Type", "application/json")];
     req_body := Some {| body_action := action; body_itemId := item_id item |} |}.

(** [{ success: false, error: error.message }] *)
Definition relay_failure (error : JsError) : JsValue :=
  JsObject {[ "success" := JsBool false; "error" := JsString (message error) ]}.

(** *** Branches of [onClientTool] that both copies of the panel share *)

Definition handle_switch_theme (invocation : ToolInvocation) : M ToolResult :=
  let requested := prop (params invocation) "theme" in
  if strict_eq_str requested "light" || strict_eq_str requested "dark" then
    when (DEV env) (console Debug "[ChatKitPanel] switch_theme");;
    emit (ThemeRequest requested);;
    mret {| success := true |}
  else mret {| success := false |}.

Definition handle_record_fact (invocation : ToolInvocation) : M ToolResult :=
  id ← answer (js_String (prop (params invocation) "fact_id" ?? JsString ""));
  text ← answer (js_String (prop (params invocation) "fact_text" ?? JsString ""));
  skip ← (if negb (to_Boolean (JsString id)) then mret true else set_has id);
  if skip : bool then mret {| success := true |}
  else
    set_add id;;
    emit (WidgetActionCall
            {| fa_type := "save";
               factId := id;
               factText := trim (replace_ws text) |});;
    mret {| success := true |}.
End browser.

(** ** The panel with local widget handlers (unnamed part 000) *)

Module Panel.
Section handlers.
Variable env : Env.

Definition handle_navigate_to_url (invocation : ToolInvocation) : M ToolResult :=
  url ← answer (js_String (prop (params invocation) "url" ?? JsString ""));
  let openInNewTab :=
    to_Boolean (prop (params invocation) "open_in_new_tab" ?? JsBool true) in
  description ←
    answer (js_String (prop (params invocation) "description" ?? JsString ""));
  if negb (to_Boolean (JsString url)) then mret {| success := false |}
  else
    when (DEV env) (console Debug "[ChatKitPanel] navigate_to_url");;
    try_catch
      ((if openInNewTab then
          console Log "[ChatKitPanel] Attempting to open URL in new tab:";;
          newWindow ← window_open_call env url "_blank" "noopener,noreferrer";
          match newWindow with
          | Some _ =>
              console Log "[ChatKitPanel] Successfully opened new tab";;
              emit WindowFocus
          | None =>
              console Warn "[ChatKitPanel] Failed to open new tab - popup blocked? Falling back to same-tab navigation";;
              set_location_href env url
          end
        else
          console Log "[ChatKitPanel] Navigating in current tab:";;
          set_location_href env url);;
       mret {| success := true |})
      (fun error =>
         console Error "[ChatKitPanel] Navigation failed";;
         mret {| success := false |}).

Definition onClientTool (invocation : ToolInvocation) : M ToolResult :=
  if String.eqb (name invocation) "switch_theme" then
    handle_switch_theme env invocation
  else if String.eqb (name invocation) "record_fact" then
    handle_record_fact invocation
  else if String.eqb (name invocation) "navigate_to_url" then
    handle_navigate_to_url invocation
  else mret {| success := false |}.

Definition onResponseEnd : M unit := emit ResponseEnd.

Definition onThreadChange : M unit := set_clear.

Definition onError (error : JsError) : M unit :=
  console Error "ChatKit error".

Definition download_failed_notice : string :=
  "Failed to download image. Please try right-clicking the image and selecting 'Save Image As'.".

Definition handle_navigation_open (action : WidgetAction) : M JsValue :=
  console Log "[Widget] Handling navigation.open";;
  let url := optional_prop (payload action) "url" in
  (if to_Boolean url then
     console Log "[Widget] Opening URL:";;
     newWindow ← window_open_call env (to_String url) "_blank" "noopener,noreferrer";
     match newWindow with
     | Some _ =>
         console Log "[Widget] Successfully opened new tab";;
         emit WindowFocus
     | None =>
         console Warn "[Widget] Failed to open new tab - popup blocked?";;
         let link := {| href := to_String url; target := "_blank";
                        rel := "noopener noreferrer"; display := "none";
                        download := "" |} in
         emit (AppendChild link);;
         emit (Click link);;
         emit (RemoveChild link)
     end
   else mret tt);;
  mret JsUndefined.

Definition handle_image_download (action : WidgetAction) : M JsValue :=
  console Log ("[Widget] Handling " +:+ action_type action);;
  let url := optional_prop (payload action) "url" in
  console Log "[Widget] Download URL:";;
  if negb (to_Boolean url) then
    console Error "[Widget] No URL provided";;
    mret JsUndefined
  else
    try_catch
      (console Log "[Widget] Fetching image from:";;
       response ← fetch_call env (image_request url);
       (if negb (ok response) then
          throw {| message := "Failed to fetch image: " +:+ pretty (status response) |}
        else mret tt);;
       blob ← answer (response_blob response);
       console Log "[Widget] Blob created, size:";;
       emit (CreateObjectURL blob);;
       let blobUrl := createObjectURL env blob in
       pathname ← answer (URL_pathname env (to_String url));
       let filename := str_or (last_segment pathname) "generated-image.png" in
       let link := {| href := blobUrl; target := ""; rel := ""; display := "";
                      download := filename |} in
       emit (AppendChild link);;
       emit (Click link);;
       emit (RemoveChild link);;
       emit (RevokeObjectURL blobUrl);;
       console Log "[Widget] Image downloaded successfully:")
      (fun error =>
         console Error "[Widget] Failed to download image:";;
         emit (Alert download_failed_notice));;
    mret JsUndefined.

Definition handle_relay (action : WidgetAction) (item : WidgetItem) : M JsValue :=
  try_catch
    (console Log "[Widget] Sending action to backend:";;
     response ← fetch_call env (relay_request action item);
     result ← answer (response_json response);
     console Log "[ChatKitPanel] Widget action response:";;
     mret result)
    (fun error =>
       console Error "[ChatKitPanel] Widget action failed:";;
       mret (relay_failure error)).

Definition onAction (action : WidgetAction) (item : WidgetItem) : M JsValue :=
  console Log "[ChatKitPanel] 🔵 Widget action received:";;
  console Log "[ChatKitPanel] 🔵 Action payload:";;
  console Log "[ChatKitPanel] 🔵 Full action object:";;
  if String.eqb (action_type action) "navigation.open" then
    handle_navigation_open action
  else if String.eqb (action_type action) "image.download"
          || String.eqb (action_type action) "image_generation.download" then
    handle_image_download action
  else handle_relay action item.
End handlers.
End Panel.

(** ** The older panel (frontend/src/components/ChatKitPanel.tsx) *)

Module Legacy.
Section handlers.
Variable env : Env.

Definition handle_navigate_to_url (invocation : ToolInvocation) : M ToolResult :=
  url ← answer (js_String (prop (params invocation) "url" ?? JsString ""));
  let openInNewTab :=
    to_Boolean (prop (params invocation) "open_in_new_tab" ?? JsBool true) in
  description ←
    answer (js_String (prop (params invocation) "description" ?? JsString ""));
  if negb (to_Boolean (JsString url)) then mret {| success := false |}
  else
    when (DEV env) (console Debug "[ChatKitPanel] navigate_to_url");;
    try_catch
      (set_location_href env url;;
       mret {| success := true |})
      (fun error =>
         console Error "[ChatKitPanel] Navigation failed";;
         mret {| success := false |}).

Definition onClientTool (invocation : ToolInvocation) : M ToolResult :=
  if String.eqb (name invocation) "switch_theme" then
    handle_switch_theme env invocation
  else if String.eqb (name invocation) "record_fact" then
    handle_record_fact invocation
  else if String.eqb (name invocation) "navigate_to_url" then
    handle_navigate_to_url invocation
  else mret {| success := false |}.

Definition onThreadChange : M unit := set_clear.

Definition onAction (action : WidgetAction) (item : WidgetItem) : M JsValue :=
  console Log "[ChatKitPanel] Widget action received:";;
  try_catch
    (response ← fetch_call env (relay_request action item);
     result ← answer (response_json response);
     console Log "[ChatKitPanel] Widget action response:";;
     (if String.eqb (action_type action) "navigation.open" then
        let url := optional_prop (payload action) "url" in
        if to_Boolean url then
          console Log "[ChatKitPanel] Opening URL:";;
          window_open_call env (to_String url) "_blank" "noopener,noreferrer";;
          mret tt
        else mret tt
      else mret tt);;
     mret result)
    (fun error =>
       console Error "[ChatKitPanel] Widget action failed:";;
       mret (relay_failure error)).
End handlers.
End Legacy.

(** ** A thread session

    ChatKit delivers tool invocations, widget actions and thread changes
    one at a time.  [onClientTool] never awaits, so each invocation runs
    from its first statement to its [return] before the next event is
    taken; [widgets.onAction] awaits, but does not touch
    [processedFacts].  What a handler resolves or rejects with goes back
    to ChatKit and the session continues. *)

Inductive SessionEvent :=
| ClientTool (invocation : ToolInvocation)
| ThreadChange
| ResponseEnded
| WidgetActionEvent (action : WidgetAction) (item : WidgetItem).

Definition handle (env : Env) (ev : SessionEvent) : M unit :=
  match ev with
  | ClientTool invocation => Panel.onClientTool env invocation;; mret tt
  | ThreadChange => Panel.onThreadChange
  | ResponseEnded => Panel.onResponseEnd
  | WidgetActionEvent action item => Panel.onAction env action item;; mret tt
  end.

(** The set and the effects after a sequence of events, each with the
    environment it meets. *)
Fixpoint run (evs : list (Env * SessionEvent)) (s : gset string)
  : gset string * list Effect :=
  match evs with
  | [] => (s, [])
  | (env, ev) :: rest =>
      let o := handle env ev s in
      let r := run rest (facts o) in
      (r.1, effects o ++ r.2)
  end.

Definition is_thread_change (ev : SessionEvent) : bool :=
  match ev with
  | ThreadChange => true
  | _ => false
  end.

(** A call of the persistence callback for fact [id]. *)
Definition is_save_of (id : string) (e : Effect) : bool :=
  match e with
  | WidgetActionCall a => String.eqb (factId a) id
  | _ => false
  end.

Definition save_count (id : string) (t : list Effect) : nat :=
  length (filter (fun e => is_save_of id e = true) t).

Definition is_console (e : Effect) : bool :=
  match e with
  | Console _ _ => true
  | _ => false
  end.

(** ** Whitespace normalisation as the specification words it

    Every maximal run of whitespace becomes one space and nothing is
    left at either end: the text is cut into its maximal runs of
    non-whitespace characters, and these words are put together again
    with one space between neighbours.  [normalize_spec] is what the
    handler's [replace] and [trim] are compared with. *)




(** ** Vocabulary of the statements *)

(** The effects that concern recorded facts: a change of the set or a
    call of the persistence callback. *)
Definition is_fact_effect (e : Effect) : bool :=
  match e with
  | SetAdd _ | SetClear | WidgetActionCall _ => true
  | _ => false
  end.

(** A computation that leaves [processedFacts] alone and never reaches
    the persistence callback. *)
Definition quiet {A} (m : M A) : Prop :=
  ∀ s, facts (m s) = s
       ∧ Forall (fun e => is_fact_effect e = false) (effects (m s)).

(** What a handler did apart from writing to the console. *)
Definition non_console (t : list Effect) : list Effect :=
  filter (fun e => is_console e = false) t.

(** [v.success === false] *)
Definition is_failed_result (v : JsValue) : bool :=
  match v with
  | JsObject o =>
      match prop o "success" with
      | JsBool false => true
      | _ => false
      end
  | _ => false
  end.

(** A stretch of a session within one thread. *)
Definition no_thread_change (evs : list (Env * SessionEvent)) : Prop :=
  Forall (fun p => is_thread_change p.2 = false) evs.

(** ** Sample environments and inputs *)


Definition ok_response : Response :=
  {| ok := true; status := 200;
     response_json := Normal (JsObject {[ "success" := JsBool true ]});
     response_blob := Normal {| blob_size := 1024 |} |}.

(** Pop-ups allowed, network reachable. *)
Definition friendly_env : Env :=
  {| DEV := false;
     window_open := fun _ => Normal (Some NewWindow);
     location_assign := fun _ => Normal tt;
     fetch := fun _ => Normal ok_response;
     createObjectURL := fun _ => "blob:1";
     URL_pathname := fun _ => Normal "/img/cat.png" |}.

(** [window.open] returns [null]. *)
Definition popup_blocked_env : Env :=
  {| DEV := false;
     window_open := fun _ => Normal None;
     location_assign := fun _ => Normal tt;
     fetch := fun _ => Normal ok_response;
     createObjectURL := fun _ => "blob:1";
     URL_pathname := fun _ => Normal "/img/cat.png" |}.

(** [window.open] returns [null] and the assignment to
    [window.location.href] raises. *)
Definition popup_blocked_raising_env : Env :=
  {| DEV := false;
     window_open := fun _ => Normal None;
     location_assign := fun _ => Throw {| message := "SecurityError" |};
     fetch := fun _ => Normal ok_response;
     createObjectURL := fun _ => "blob:1";
     URL_pathname := fun _ => Normal "/img/cat.png" |}.

(** Every [fetch] rejects. *)
Definition offline_env : Env :=
  {| DEV := false;
     window_open := fun _ => Normal (Some NewWindow);
     location_assign := fun _ => Normal tt;
     fetch := fun _ => Throw {| message := "Failed to fetch" |};
     createObjectURL := fun _ => "blob:1";
     URL_pathname := fun _ => Normal "/img/cat.png" |}.

Definition error_body : JsValue :=
  JsObject {[ "detail" := JsString "Internal Server Error" ]}.

Definition error_response : Response :=
  {| ok := false; status := 500;
     response_json := Normal error_body;
     response_blob := Normal {| blob_size := 0 |} |}.

(** The backend answers 500 with a JSON body. *)
Definition failing_backend_env : Env :=
  {| DEV := false;
     window_open := fun _ => Normal (Some NewWindow);
     location_assign := fun _ => Normal tt;
     fetch := fun _ => Normal error_response;
     createObjectURL := fun _ => "blob:1";
     URL_pathname := fun _ => Normal "/img/cat.png" |}.

(** A parsed object whose conversion to a string throws. *)
Definition unconvertible : JsValue := JsObject {[ "toString" := JsNumber 1 ]}.

Definition record_fact_invocation (fact_id fact_text : JsValue) : ToolInvocation :=
  {| name := "record_fact";
     params := {[ "fact_id" := fact_id; "fact_text" := fact_text ]} |}.

Definition navigate_described (url open_in_new_tab description : JsValue)
  : ToolInvocation :=
  {| name := "navigate_to_url";
     params := {[ "url" := url; "open_in_new_tab" := open_in_new_tab;
                  "description" := description ]} |}.

Definition navigate_invocation (url open_in_new_tab : JsValue) : ToolInvocation :=
  {| name := "navigate_to_url";
     params := {[ "url" := url; "open_in_new_tab" := open_in_new_tab ]} |}.

Definition sample_item : WidgetItem := {| item_id := "item_1" |}.

Definition widget_action (type : string) (fields : gmap string JsValue) : WidgetAction :=
  {| action_type := type; payload := JsObject fields |}.

(** ** Vocabulary of the further properties *)

(** Every character is whitespace. *)
Fixpoint all_whitespace (s : string) : bool :=
  match s with
  | EmptyString => true
  | String c s' => is_whitespace c && all_whitespace s'
  end.

(** The characters that are not whitespace, in order. *)
Fixpoint strip_whitespace (s : string) : string :=
  match s with
  | EmptyString => EmptyString
  | String c s' =>
      if is_whitespace c then strip_whitespace s'
      else String c (strip_whitespace s')
  end.

(** From a position whose left neighbour is a space ([prev_space]) or
    not: every whitespace character is the space itself, no two of them
    are neighbours, and the text does not end on one. *)
Fixpoint well_spaced_go (prev_space : bool) (s : string) : bool :=
  match s with
  | EmptyString => negb prev_space
  | String c s' =>
      if is_whitespace c then
        Ascii.eqb c " " && negb prev_space && well_spaced_go true s'
      else well_spaced_go false s'
  end.

(** What [replace] leaves: every whitespace character is a space and no
    two are neighbours. *)
Fixpoint single_spaced_go (prev_space : bool) (s : string) : bool :=
  match s with
  | EmptyString => true
  | String c s' =>
      if is_whitespace c then
        Ascii.eqb c " " && negb prev_space && single_spaced_go true s'
      else single_spaced_go false s'
  end.

(** Words separated by single spaces, with nothing around them. *)
Definition well_spaced (s : string) : bool :=
  match s with
  | EmptyString => true
  | _ => well_spaced_go true s
  end.

Fixpoint contains_slash (s : string) : bool :=
  match s with
  | EmptyString => false
  | String c s' => Ascii.eqb c "/" || contains_slash s'
  end.

(** A computation that completes with a value from every state: as a
    handler, a promise that is never rejected. *)
Definition resolves {A} (m : M A) : Prop :=
  ∀ s, ∃ a, result (m s) = Normal a.

(** [window.open] throws. *)
Definition popup_raising_env : Env :=
  {| DEV := false;
     window_open := fun _ => Throw {| message := "SyntaxError" |};
     location_assign := fun _ => Normal tt;
     fetch := fun _ => Normal ok_response;
     createObjectURL := fun _ => "blob:1";
     URL_pathname := fun _ => Normal "/img/cat.png" |}.

(** The image is served, but [new URL(url)] throws, as it does for a
    URL without a scheme. *)
Definition relative_url_env : Env :=
  {| DEV := false;
     window_open := fun _ => Normal (Some NewWindow);
     location_assign := fun _ => Normal tt;
     fetch := fun _ => Normal ok_response;
     createObjectURL := fun _ => "blob:1";
     URL_pathname := fun _ => Throw {| message := "Invalid URL" |} |}.

Definition html_response : Response :=
  {| ok := false; status := 502;
     response_json := Throw {| message := "Unexpected token < in JSON" |};
     response_blob := Normal {| blob_size := 0 |} |}.

(** The backend answers with a page that is no JSON. *)
Definition bad_gateway_env : Env :=
  {| DEV := false;
     window_open := fun _ => Normal (Some NewWindow);
     location_assign := fun _ => Normal tt;
     fetch := fun _ => Normal html_response;
     createObjectURL := fun _ => "blob:1";
     URL_pathname := fun _ => Normal "/img/cat.png" |}.

(** The same environment with the development flag set to [b]. *)
Definition with_DEV (b : bool) (env : Env) : Env :=
  {| DEV := b;
     window_open := window_open env;
     location_assign := location_assign env;
     fetch := fetch env;
     createObjectURL := createObjectURL env;
     URL_pathname := URL_pathname env |}.

(** The hidden link that the widget path clicks when no window opens. *)
Definition fallback_link (url : string) : Link :=
  {| href := url; target := "_blank"; rel := "noopener noreferrer";
     display := "none"; download := "" |}.

(** The link that the download branch clicks. *)
Definition download_link (blobUrl filename : string) : Link :=
  {| href := blobUrl; target := ""; rel := ""; display := "";
     download := filename |}.

Definition is_location_assign (e : Effect) : bool :=
  match e with
  | LocationAssign _ => true
  | _ => false
  end.

Definition is_fetch (e : Effect) : bool :=
  match e with
  | Fetch _ => true
  | _ => false
  end.

Definition is_window_open (e : Effect) : bool :=
  match e with
  | WindowOpen _ _ _ => true
  | _ => false
  end.

(** What a handler did apart from [console.debug]. *)
Definition is_debug (e : Effect) : bool :=
  match e with
  | Console Debug _ => true
  | _ => false
  end.

Definition non_debug (t : list Effect) : list Effect :=
  filter (fun e => is_debug e = false) t.

(** How many times the thread changes in a session. *)
Definition thread_changes (evs : list (Env * SessionEvent)) : nat :=
  length (filter (fun p => is_thread_change p.2 = true) evs).

Definition switch_theme_invocation (theme : JsValue) : ToolInvocation :=
  {| name := "switch_theme"; params := {[ "theme" := theme ]} |}.

(** * Proofs *)

(** ** Strings *)

Section strings.
Implicit Types (s p q t : string) (c : ascii).

Lemma app_cons c s t : String c s +:+ t = String c (s +:+ t).
Proof. reflexivity. Qed.

Lemma app_empty_l s : "" +:+ s = s.
Proof. reflexivity. Qed.

Lemma app_empty_r s : s +:+ "" = s.
Proof. induction s as [|c s IH]; [done|]. by rewrite app_cons, IH. Qed.

Lemma app_assoc' p q t : (p +:+ q) +:+ t = p +:+ (q +:+ t).
Proof. induction p as [|c p IH]; [done|]. by rewrite !app_cons, IH. Qed.


Lemma trimStart_replace_ws_go b s :
  trimStart (replace_ws_go b s) = replace_ws_go false (trimStart s).
Proof.
  revert b. induction s as [|c s IH]; intros b; [done|].
  simpl. destruct (is_whitespace c) eqn:Hc.
  - destruct b; simpl; [apply IH|]. change (is_whitespace " ") with true.
    simpl. apply IH.
  - simpl. by rewrite Hc.
Qed.








End strings.

(** ** Running a handler *)

Ltac unfold_monad :=
  unfold when, console, window_open_call, set_location_href, fetch_call,
    set_has, set_add, set_clear, emit, answer, throw, try_catch,
    mbind, M_bind, bind, after, mret, M_ret, ret in *.

Lemma eqb_neq_false (a b : string) : a ≠ b → String.eqb a b = false.
Proof. intros H. by apply String.eqb_neq. Qed.

Lemma truthy_nonempty (s : string) :
  s ≠ "" → negb (to_Boolean (JsString s)) = false.
Proof. intros H. simpl. by rewrite eqb_neq_false. Qed.

Lemma js_String_converts (v : JsValue) :
  converts v = true → js_String v = Normal (to_String v).
Proof. intros H. unfold js_String. by rewrite H. Qed.

Lemma js_String_fails (v : JsValue) :
  converts v = false → js_String v = Throw type_error.
Proof. intros H. unfold js_String. by rewrite H. Qed.

Lemma bind_answer_Normal {A B} (a : A) (f : A → M B) (s : gset string) :
  (answer (Normal a) ≫= f) s = f a s.
Proof. unfold answer, mbind, M_bind, bind, after. by destruct (f a s). Qed.

Lemma bind_answer_Throw {A B} (e : JsError) (f : A → M B) (s : gset string) :
  (answer (Throw e) ≫= f) s
  = {| result := Throw e; facts := s; effects := [] |}.
Proof. reflexivity. Qed.

(** Run the [String(...)] calls at the head of a handler, given that
    their arguments convert. *)
Ltac coerce :=
  repeat match goal with
         | H : converts ?v = true |- context [js_String ?v] =>
             rewrite (js_String_converts v H)
         end;
  repeat (rewrite bind_answer_Normal; cbv beta zeta).

Lemma js_String_Normal (v : JsValue) (str : string) :
  js_String v = Normal str → converts v = true ∧ to_String v = str.
Proof. unfold js_String. destruct (converts v); [|done]. by intros [= ->]. Qed.

(** What the [record_fact] branch does, by cases on the two coercions
    and on the coerced id. *)
Lemma handle_record_fact_throws (invocation : ToolInvocation) (s : gset string) :
  converts (prop (params invocation) "fact_id" ?? JsString "") = false
  ∨ converts (prop (params invocation) "fact_text" ?? JsString "") = false →
  handle_record_fact invocation s
  = {| result := Throw type_error; facts := s; effects := [] |}.
Proof.
  intros H. unfold handle_record_fact, js_String.
  destruct (converts (prop (params invocation) "fact_id" ?? JsString ""));
    [|done].
  destruct H as [? | ->]; done.
Qed.

Lemma handle_record_fact_skip (invocation : ToolInvocation) (s : gset string) :
  converts (prop (params invocation) "fact_id" ?? JsString "") = true →
  converts (prop (params invocation) "fact_text" ?? JsString "") = true →
  let id := to_String (prop (params invocation) "fact_id" ?? JsString "") in
  id = "" ∨ id ∈ s →
  handle_record_fact invocation s
  = {| result := Normal {| success := true |}; facts := s; effects := [] |}.
Proof.
  intros Hcid Hctext id H. unfold handle_record_fact.
  rewrite !js_String_converts by done. fold id.
  unfold_monad. cbn [result facts effects app].
  destruct (decide (id = "")) as [->|Hne]; [done|].
  destruct H as [?|Hin]; [done|].
  rewrite truthy_nonempty by done. cbn.
  by rewrite bool_decide_eq_true_2.
Qed.

Lemma handle_record_fact_save (invocation : ToolInvocation) (s : gset string) :
  converts (prop (params invocation) "fact_id" ?? JsString "") = true →
  converts (prop (params invocation) "fact_text" ?? JsString "") = true →
  let id := to_String (prop (params invocation) "fact_id" ?? JsString "") in
  let text := to_String (prop (params invocation) "fact_text" ?? JsString "") in
  id ≠ "" → id ∉ s →
  handle_record_fact invocation s
  = {| result := Normal {| success := true |};
       facts := {[ id ]} ∪ s;
       effects := [SetAdd id;
                   WidgetActionCall {| fa_type := "save"; factId := id;
                                       factText := trim (replace_ws text) |}] |}.
Proof.
  intros Hcid Hctext id text Hne Hin. unfold handle_record_fact.
  rewrite !js_String_converts by done. fold id text.
  unfold_monad. cbn [result facts effects app].
  rewrite truthy_nonempty by done. cbn.
  by rewrite bool_decide_eq_false_2.
Qed.

Lemma handle_record_fact_cases (invocation : ToolInvocation) (s : gset string) :
  let idv := prop (params invocation) "fact_id" ?? JsString "" in
  let textv := prop (params invocation) "fact_text" ?? JsString "" in
  let o := handle_record_fact invocation s in
  ((converts idv = false ∨ converts textv = false)
   ∧ o = {| result := Throw type_error; facts := s; effects := [] |})
  ∨ (converts idv = true ∧ converts textv = true
     ∧ (to_String idv = "" ∨ to_String idv ∈ s)
     ∧ o = {| result := Normal {| success := true |}; facts := s;
              effects := [] |})
  ∨ (converts idv = true ∧ converts textv = true
     ∧ to_String idv ≠ "" ∧ (to_String idv ∉ s)
     ∧ o = {| result := Normal {| success := true |};
              facts := {[ to_String idv ]} ∪ s;
              effects :=
                [SetAdd (to_String idv);
                 WidgetActionCall
                   {| fa_type := "save"; factId := to_String idv;
                      factText := trim (replace_ws (to_String textv)) |}] |}).
Proof.
  intros idv textv o. subst o.
  destruct (converts idv) eqn:Hid;
    [|left; split; [by left|apply handle_record_fact_throws; by left]].
  destruct (converts textv) eqn:Htext;
    [|left; split; [by right|apply handle_record_fact_throws; by right]].
  right.
  destruct (decide (to_String idv = "")) as [He|He];
    [left; split_and!; [done..|by left|];
     apply handle_record_fact_skip; [done..|by left]|].
  destruct (decide (to_String idv ∈ s)) as [Hin|Hin];
    [left; split_and!; [done..|by right|];
     apply handle_record_fact_skip; [done..|by right]|].
  right. split_and!; [done..|]. by apply handle_record_fact_save.
Qed.

Lemma record_fact_dispatch (env : Env) (invocation : ToolInvocation) :
  name invocation = "record_fact" →
  Panel.onClientTool env invocation = handle_record_fact invocation.
Proof. intros Hn. unfold Panel.onClientTool. by rewrite Hn. Qed.

(** ** Computations that do not touch the recorded facts *)

Create HintDb quiet.

Lemma quiet_ret {A} (a : A) : quiet (mret a).
Proof. by intros s; split; [|constructor]. Qed.

Lemma quiet_throw {A} (e : JsError) : quiet (@throw A e).
Proof. by intros s; split; [|constructor]. Qed.

Lemma quiet_answer {A} (c : Completion A) : quiet (answer c).
Proof. by intros s; split; [|constructor]. Qed.

Lemma quiet_emit (e : Effect) : is_fact_effect e = false → quiet (emit e).
Proof. intros He s; split; [done|]. by repeat constructor. Qed.

Lemma quiet_console (lvl : Level) (msg : string) : quiet (console lvl msg).
Proof. by apply quiet_emit. Qed.

Lemma quiet_after {A} (t : list Effect) (o : Outcome A) (s : gset string) :
  Forall (fun e => is_fact_effect e = false) t →
  facts o = s ∧ Forall (fun e => is_fact_effect e = false) (effects o) →
  facts (after t o) = s
  ∧ Forall (fun e => is_fact_effect e = false) (effects (after t o)).
Proof.
  intros Ht [Hs Ho]. destruct o as [r s' t']; simpl in *.
  split; [done|]. by apply Forall_app.
Qed.

Lemma quiet_bind {A B} (m : M A) (f : A → M B) :
  quiet m → (∀ a, quiet (f a)) → quiet (m ≫= f).
Proof.
  intros Hm Hf s. unfold mbind, M_bind, bind.
  destruct (Hm s) as [Hs Ht]. destruct (m s) as [[a|e] s' t]; simpl in *.
  - subst s'. apply quiet_after; [done|]. apply Hf.
  - done.
Qed.

Lemma quiet_try_catch {A} (m : M A) (h : JsError → M A) :
  quiet m → (∀ e, quiet (h e)) → quiet (try_catch m h).
Proof.
  intros Hm Hh s. unfold try_catch.
  destruct (Hm s) as [Hs Ht]. destruct (m s) as [[a|e] s' t]; simpl in *.
  - done.
  - subst s'. apply quiet_after; [done|]. apply Hh.
Qed.

Lemma quiet_when (b : bool) (m : M unit) : quiet m → quiet (when b m).
Proof. destruct b; [done|]. intros _. apply quiet_ret. Qed.

#[global] Hint Resolve quiet_ret quiet_throw quiet_answer quiet_console
  quiet_when : quiet.

Ltac quiet_step :=
  first
    [ apply quiet_bind; [|intros ?]
    | apply quiet_try_catch; [|intros ?]
    | apply quiet_emit; reflexivity
    | match goal with
      | |- quiet (if ?b then _ else _) => destruct b
      | |- quiet (match ?x with _ => _ end) => destruct x
      end
    | solve [auto with quiet] ].

Ltac solve_quiet := repeat quiet_step.

Lemma quiet_handle_switch_theme env invocation :
  quiet (handle_switch_theme env invocation).
Proof. unfold handle_switch_theme. solve_quiet. Qed.

Lemma quiet_handle_navigate_to_url env invocation :
  quiet (Panel.handle_navigate_to_url env invocation).
Proof.
  unfold Panel.handle_navigate_to_url, window_open_call, set_location_href.
  solve_quiet.
Qed.

Lemma quiet_onAction env action item : quiet (Panel.onAction env action item).
Proof.
  unfold Panel.onAction, Panel.handle_navigation_open,
    Panel.handle_image_download, Panel.handle_relay,
    window_open_call, fetch_call.
  solve_quiet.
Qed.

(** ** Sessions *)

Lemma save_count_app (id : string) (t1 t2 : list Effect) :
  save_count id (t1 ++ t2) = save_count id t1 + save_count id t2.
Proof. unfold save_count. by rewrite filter_app, length_app. Qed.

Lemma save_count_quiet (id : string) (t : list Effect) :
  Forall (fun e => is_fact_effect e = false) t → save_count id t = 0.
Proof.
  unfold save_count. induction 1 as [|e t He _ IH]; [done|].
  rewrite filter_cons. destruct e; simpl in *; try done.
Qed.

Lemma save_count_record (id id' text : string) :
  save_count id
    [SetAdd id';
     WidgetActionCall {| fa_type := "save"; factId := id'; factText := text |}]
  = if decide (id' = id) then 1 else 0.
Proof.
  unfold save_count. rewrite !filter_cons, filter_nil. simpl.
  destruct (decide (id' = id)) as [->|Hne].
  - by rewrite String.eqb_refl.
  - by rewrite eqb_neq_false.
Qed.

Lemma discard_result {A} (m : M A) (s : gset string) :
  facts ((m ≫= fun _ => mret tt) s) = facts (m s)
  ∧ effects ((m ≫= fun _ => mret tt) s) = effects (m s).
Proof.
  unfold mbind, M_bind, bind, mret, M_ret, ret.
  destruct (m s) as [[a|e] s' t]; simpl; [|done]. by rewrite app_nil_r.
Qed.

(** One event other than a thread change either leaves the facts alone
    or records exactly one new, non-empty id: first the insertion, then
    the call of the persistence callback. *)
Lemma handle_cases (env : Env) (ev : SessionEvent) (s : gset string) :
  is_thread_change ev = false →
  (facts (handle env ev s) = s
   ∧ Forall (fun e => is_fact_effect e = false) (effects (handle env ev s)))
  ∨ (∃ id text, id ≠ "" ∧ (id ∉ s)
       ∧ facts (handle env ev s) = {[ id ]} ∪ s
       ∧ effects (handle env ev s)
         = [SetAdd id;
            WidgetActionCall {| fa_type := "save"; factId := id;
                                factText := text |}]).
Proof.
  intros Htc. destruct ev as [invocation| | |action item]; [|done| |].
  - simpl. destruct (discard_result (Panel.onClientTool env invocation) s)
      as [-> ->].
    unfold Panel.onClientTool.
    destruct (String.eqb (name invocation) "switch_theme");
      [left; apply quiet_handle_switch_theme|].
    destruct (String.eqb (name invocation) "record_fact").
    + destruct (handle_record_fact_cases invocation s)
        as [[_ ->]|[(_ & _ & _ & ->)|(_ & _ & Hid & Hin & ->)]].
      * left. by split; [|constructor].
      * left. by split; [|constructor].
      * right. by eexists _, _.
    + destruct (String.eqb (name invocation) "navigate_to_url");
        [left; apply quiet_handle_navigate_to_url|].
      left. apply (quiet_ret (A := ToolResult)).
  - left. simpl. split; [done|]. by repeat constructor.
  - left. simpl. destruct (discard_result (Panel.onAction env action item) s)
      as [-> ->].
    apply quiet_onAction.
Qed.

(** Within one thread, the set only grows. *)
Lemma run_grows (evs : list (Env * SessionEvent)) (s : gset string) :
  no_thread_change evs → s ⊆ (run evs s).1.
Proof.
  revert s. induction evs as [|[env ev] evs IH]; intros s Hevs; [done|].
  inversion Hevs as [|? ? Hev Hrest]; subst. simpl in *.
  etrans; [|apply IH; done].
  destruct (handle_cases env ev s Hev) as [[-> _]|(id & text & _ & _ & -> & _)];
    set_solver.
Qed.

(** Within one thread, an id already in the set is never saved, and no id
    is saved twice. *)
Lemma save_count_session (id : string) (evs : list (Env * SessionEvent)) :
  no_thread_change evs →
  ∀ s, save_count id (run evs s).2 ≤ 1
       ∧ (id ∈ s → save_count id (run evs s).2 = 0).
Proof.
  induction 1 as [|[env ev] evs Hev _ IH]; intros s;
    [by split; [|intros _]; unfold save_count; simpl; lia|].
  simpl in *. rewrite save_count_app.
  destruct (handle_cases env ev s Hev)
    as [[Hs Hq]|(id' & text & Hne & Hin & Hs & Ht)].
  - rewrite Hs, (save_count_quiet id _ Hq). apply IH.
  - rewrite Hs, Ht, save_count_record. destruct (IH ({[ id' ]} ∪ s)) as [IH1 IH2].
    destruct (decide (id' = id)) as [->|Hneq].
    + rewrite IH2 by (apply elem_of_union_l; by apply elem_of_singleton).
      split; [|done]. lia.
    + split; [done|]. intros Hid. apply IH2. by apply elem_of_union_r.
Qed.

(** ** The claims about recorded facts *)

(** The persistence callback, when [onClientTool] reaches it, comes
    right after the insertion of the same id, and nothing else is done. *)
Lemma onClientTool_save_shape (env : Env) (invocation : ToolInvocation)
    (s : gset string) (a : FactAction) :
  WidgetActionCall a ∈ effects (Panel.onClientTool env invocation s) →
  effects (Panel.onClientTool env invocation s)
  = [SetAdd (factId a); WidgetActionCall a]
  ∧ factId a ∈ facts (Panel.onClientTool env invocation s).
Proof.
  intros Ha.
  destruct (discard_result (Panel.onClientTool env invocation) s) as [Hf He].
  destruct (handle_cases env (ClientTool invocation) s eq_refl)
    as [[_ Hq]|(id & text & _ & _ & Hs & Ht)]; simpl in *.
  - rewrite He in Hq. rewrite Forall_forall in Hq. by apply Hq in Ha.
  - rewrite He in Ht. rewrite Hf in Hs. rewrite Ht in Ha |- *. rewrite Hs.
    apply elem_of_cons in Ha as [?|Ha]; [done|].
    apply list_elem_of_singleton in Ha. simplify_eq. simpl.
    split; [done|]. apply elem_of_union_l. by apply elem_of_singleton.
Qed.

(** C1.  Within one thread session, that is over any sequence of tool
    invocations, widget actions and response ends with no thread change
    among them, the persistence callback is called at most once for any
    fact id; two [record_fact] invocations with the same [fact_id] are the
    case in point.  And in every invocation that reaches the callback,
    the id has been added to [processedFacts] just before the call. *)
Theorem record_fact_saved_at_most_once
    (evs : list (Env * SessionEvent)) (s : gset string) :
  no_thread_change evs →
  (∀ id, save_count id (run evs s).2 ≤ 1)
  ∧ (∀ env invocation s0 a,
       WidgetActionCall a ∈ effects (Panel.onClientTool env invocation s0) →
       effects (Panel.onClientTool env invocation s0)
       = [SetAdd (factId a); WidgetActionCall a]
       ∧ factId a ∈ facts (Panel.onClientTool env invocation s0)).
Proof.
  intros Hevs. split.
  - intros id. by apply save_count_session.
  - intros env invocation s0 a. apply onClientTool_save_shape.
Qed.

Lemma record_fact_saved_at_most_once_witness :
  let call := ClientTool (record_fact_invocation (JsString "f1") (JsString "likes tea")) in
  let evs := [(friendly_env, call); (popup_blocked_env, call)] in
  no_thread_change evs
  ∧ save_count "f1" (run evs ∅).2 ≤ 1.
Proof.
  intros call evs.
  assert (H : no_thread_change evs) by (by repeat constructor).
  split; [exact H|].
  exact (proj1 (record_fact_saved_at_most_once evs ∅ H) "f1").
Defined.

Lemma onThreadChange_outcome (s : gset string) :
  Panel.onThreadChange s
  = {| result := Normal tt; facts := ∅; effects := [SetClear] |}.
Proof. reflexivity. Qed.

Lemma save_count_add_call (id added : string) (a : FactAction) :
  save_count id [SetAdd added; WidgetActionCall a]
  = if decide (factId a = id) then 1 else 0.
Proof.
  unfold save_count. rewrite !filter_cons, filter_nil. simpl.
  destruct (decide (factId a = id)) as [->|Hne].
  - by rewrite String.eqb_refl.
  - by rewrite eqb_neq_false.
Qed.

(** C3, as the code has it.  [onThreadChange] empties [processedFacts]
    whatever it held; a fact that went to the persistence callback before
    the thread change goes to it again after the change, on a
    [record_fact] invocation whose [fact_id] coerces to the same id and
    whose [fact_text] converts to a string; and no other event ever
    removes an id. *)
Theorem thread_change_resets_dedupe :
  (∀ s, facts (Panel.onThreadChange s) = ∅)
  ∧ (∀ e1 e0 e2 inv1 inv2 s a,
       WidgetActionCall a ∈ effects (Panel.onClientTool e1 inv1 s) →
       name inv2 = "record_fact" →
       js_String (prop (params inv2) "fact_id" ?? JsString "")
       = Normal (factId a) →
       converts (prop (params inv2) "fact_text" ?? JsString "") = true →
       save_count (factId a)
         (run [(e1, ClientTool inv1); (e0, ThreadChange);
               (e2, ClientTool inv2)] s).2 = 2)
  ∧ (∀ env ev s, is_thread_change ev = false → s ⊆ facts (handle env ev s)).
Proof.
  split; [done|]. split.
  - intros e1 e0 e2 inv1 inv2 s a Ha Hn Hid Htext.
    apply js_String_Normal in Hid as [Hcid Hid].
    assert (Hne : factId a ≠ "").
    { destruct (discard_result (Panel.onClientTool e1 inv1) s) as [_ He].
      destruct (handle_cases e1 (ClientTool inv1) s eq_refl)
        as [[_ Hq]|(id & text & Hne & _ & _ & Ht)]; simpl in *.
      - rewrite He in Hq. rewrite Forall_forall in Hq. by apply Hq in Ha.
      - rewrite He in Ht. rewrite Ht in Ha.
        apply elem_of_cons in Ha as [?|Ha]; [done|].
        apply list_elem_of_singleton in Ha. by simplify_eq. }
    apply onClientTool_save_shape in Ha as [Ha _].
    cbn [run handle fst snd].
    destruct (discard_result (Panel.onClientTool e1 inv1) s) as [-> ->].
    rewrite Ha, onThreadChange_outcome. cbn [facts effects].
    destruct (discard_result (Panel.onClientTool e2 inv2) ∅) as [_ ->].
    rewrite record_fact_dispatch by done.
    rewrite handle_record_fact_save
      by (done || (rewrite Hid; done) || (rewrite Hid; apply not_elem_of_empty)).
    cbn [effects]. rewrite Hid.
    change (?x :: ?y :: SetClear :: ?l) with ([x; y] ++ [SetClear] ++ l).
    rewrite !save_count_app, save_count_add_call, save_count_record.
    rewrite !decide_True by done. by unfold save_count.
  - intros env ev s Hev.
    destruct (handle_cases env ev s Hev) as [[-> _]|(id & text & _ & _ & -> & _)];
      [done|]. apply union_subseteq_r.
Qed.

Lemma thread_change_resets_dedupe_witness :
  let inv1 := record_fact_invocation (JsString "f1") (JsString "likes tea") in
  let inv2 := record_fact_invocation (JsString "f1") (JsString "likes coffee") in
  save_count "f1"
    (run [(friendly_env, ClientTool inv1); (friendly_env, ThreadChange);
          (friendly_env, ClientTool inv2)] ∅).2 = 2.
Proof.
  intros inv1 inv2.
  refine (proj1 (proj2 thread_change_resets_dedupe)
            friendly_env friendly_env friendly_env inv1 inv2 ∅
            {| fa_type := "save"; factId := "f1"; factText := "likes tea" |}
            _ eq_refl eq_refl eq_refl).
  vm_compute. by repeat constructor.
Defined.

(** C3 as stated fails where the text of the later invocation does not
    convert: the fact was saved before the thread change, and after it
    the invocation with the same id throws at [String(fact_text)], so
    the id is saved once, not twice. *)
Lemma thread_change_then_unconvertible_text :
  let inv1 := record_fact_invocation (JsString "f1") (JsString "likes tea") in
  let inv2 := record_fact_invocation (JsString "f1") unconvertible in
  save_count "f1" (run [(friendly_env, ClientTool inv1)] ∅).2 = 1
  ∧ save_count "f1"
      (run [(friendly_env, ClientTool inv1); (friendly_env, ThreadChange);
            (friendly_env, ClientTool inv2)] ∅).2 = 1
  ∧ Panel.onClientTool friendly_env inv2 ∅
    = {| result := Throw type_error; facts := ∅; effects := [] |}.
Proof. by vm_compute. Qed.



(** ** The claims about dispatch *)

(** C8.  A tool name other than [switch_theme], [record_fact] and
    [navigate_to_url] resolves with [{ success: false }]: the handler
    does not throw, performs nothing and leaves [processedFacts] as it
    was.  Both copies of the panel agree. *)
Theorem unknown_tool_yields_failure (env : Env) (invocation : ToolInvocation)
    (s : gset string) :
  name invocation ≠ "switch_theme" →
  name invocation ≠ "record_fact" →
  name invocation ≠ "navigate_to_url" →
  Panel.onClientTool env invocation s
  = {| result := Normal {| success := false |}; facts := s; effects := [] |}
  ∧ Legacy.onClientTool env invocation s
    = {| result := Normal {| success := false |}; facts := s; effects := [] |}.
Proof.
  intros H1 H2 H3. unfold Panel.onClientTool, Legacy.onClientTool.
  by rewrite !eqb_neq_false.
Qed.

Lemma unknown_tool_yields_failure_witness :
  Panel.onClientTool friendly_env {| name := "get_weather"; params := ∅ |} ∅
  = {| result := Normal {| success := false |}; facts := ∅; effects := [] |}.
Proof.
  refine (proj1 (unknown_tool_yields_failure friendly_env
                   {| name := "get_weather"; params := ∅ |} ∅ _ _ _));
    discriminate.
Defined.

(** C9, as the code has it.  A [record_fact] invocation whose [fact_id]
    coerces to the empty string calls nothing, the persistence callback
    included, and leaves [processedFacts] as it was; it resolves with
    [{ success: true }] when [fact_text] converts to a string, and
    throws what [String(fact_text)] throws when it does not, the
    conversion coming before the test of the id.  Both copies of the
    panel agree. *)
Theorem empty_fact_id_is_ignored (env : Env) (invocation : ToolInvocation)
    (s : gset string) :
  name invocation = "record_fact" →
  js_String (prop (params invocation) "fact_id" ?? JsString "") = Normal "" →
  let o := Panel.onClientTool env invocation s in
  facts o = s
  ∧ effects o = []
  ∧ result o
    = match js_String (prop (params invocation) "fact_text" ?? JsString "") with
      | Normal _ => Normal {| success := true |}
      | Throw e => Throw e
      end
  ∧ Legacy.onClientTool env invocation s = o.
Proof.
  intros Hn Hid o. subst o. unfold Panel.onClientTool, Legacy.onClientTool.
  rewrite Hn. simpl. apply js_String_Normal in Hid as [Hcid Hid].
  destruct (handle_record_fact_cases invocation s)
    as [[[H|H] ->]|[(_ & Hct & _ & ->)|(_ & _ & Hne & _ & _)]];
    [congruence| |by rewrite js_String_converts|done].
  by rewrite js_String_fails.
Qed.

Lemma empty_fact_id_is_ignored_witness :
  Panel.onClientTool friendly_env
    (record_fact_invocation (JsArray [JsNull]) (JsString "likes tea")) {[ "f1" ]}
  = {| result := Normal {| success := true |}; facts := {[ "f1" ]}; effects := [] |}.
Proof.
  pose proof (empty_fact_id_is_ignored friendly_env
                (record_fact_invocation (JsArray [JsNull]) (JsString "likes tea"))
                {[ "f1" ]} eq_refl eq_refl) as (H1 & H2 & H3 & _).
  destruct (Panel.onClientTool friendly_env _ _) as [r s t].
  simpl in *. by subst.
Defined.

(** C9 as stated fails where [fact_text] does not convert: the id is
    empty, nothing is saved, but the handler throws instead of
    resolving with [{ success: true }]. *)
Lemma empty_fact_id_unconvertible_text :
  Panel.onClientTool friendly_env
    (record_fact_invocation (JsString "") unconvertible) ∅
  = {| result := Throw type_error; facts := ∅; effects := [] |}.
Proof. by vm_compute. Qed.

(** ** The claims about navigation *)

Lemma navigate_dispatch (env : Env) (invocation : ToolInvocation) :
  name invocation = "navigate_to_url" →
  Panel.onClientTool env invocation = Panel.handle_navigate_to_url env invocation.
Proof. intros Hn. unfold Panel.onClientTool. by rewrite Hn. Qed.

(** The [String(...)] calls of [navigate_to_url] come first, outside
    the [try]: when one of them throws, so does the handler, before
    anything is done.  Both copies. *)
Lemma navigate_throws (env : Env) (invocation : ToolInvocation) (s : gset string) :
  converts (prop (params invocation) "url" ?? JsString "") = false
  ∨ converts (prop (params invocation) "description" ?? JsString "") = false →
  Panel.handle_navigate_to_url env invocation s
  = {| result := Throw type_error; facts := s; effects := [] |}
  ∧ Legacy.handle_navigate_to_url env invocation s
    = {| result := Throw type_error; facts := s; effects := [] |}.
Proof.
  intros H. unfold Panel.handle_navigate_to_url, Legacy.handle_navigate_to_url.
  destruct (converts (prop (params invocation) "url" ?? JsString "")) eqn:Hu.
  - destruct H as [?|H]; [done|]. coerce.
    by rewrite !(js_String_fails _ H), !bind_answer_Throw.
  - rewrite !(js_String_fails _ Hu). by rewrite !bind_answer_Throw.
Qed.

(** C2, as the code has it.  When [url] and [description] convert to
    strings, [url] is non-empty, [open_in_new_tab] coerces to true and
    [window.open] returns no window, the handler assigns the same URL to
    [window.location.href], and that is all it does to the browser
    besides the attempt to open; it resolves with [{ success: true }]
    when the assignment completes and with [{ success: false }] when
    the assignment raises. *)
Theorem navigate_new_tab_blocked_falls_back (env : Env)
    (invocation : ToolInvocation) (s : gset string) :
  name invocation = "navigate_to_url" →
  converts (prop (params invocation) "url" ?? JsString "") = true →
  converts (prop (params invocation) "description" ?? JsString "") = true →
  let url := to_String (prop (params invocation) "url" ?? JsString "") in
  url ≠ "" →
  to_Boolean (prop (params invocation) "open_in_new_tab" ?? JsBool true) = true →
  window_open env url = Normal None →
  let o := Panel.onClientTool env invocation s in
  non_console (effects o)
  = [WindowOpen url "_blank" "noopener,noreferrer"; LocationAssign url]
  ∧ facts o = s
  ∧ result o
    = Normal {| success := match location_assign env url with
                           | Normal _ => true
                           | Throw _ => false
                           end |}.
Proof.
  intros Hn Hcu Hcd url Hurl Hnew Hopen o. subst o.
  rewrite navigate_dispatch by done.
  unfold Panel.handle_navigate_to_url. coerce. fold url.
  rewrite truthy_nonempty by done. rewrite Hnew.
  unfold_monad. simpl. rewrite Hopen. simpl.
  destruct (location_assign env url) as [[]|e], (DEV env); simpl; done.
Qed.

Lemma navigate_new_tab_blocked_falls_back_witness :
  let invocation :=
    navigate_invocation (JsString "https://example.com") (JsBool true) in
  let o := Panel.onClientTool popup_blocked_env invocation ∅ in
  non_console (effects o)
  = [WindowOpen "https://example.com" "_blank" "noopener,noreferrer";
     LocationAssign "https://example.com"]
  ∧ facts o = ∅
  ∧ result o = Normal {| success := true |}.
Proof.
  intros invocation.
  refine (navigate_new_tab_blocked_falls_back popup_blocked_env invocation ∅
            eq_refl eq_refl eq_refl _ eq_refl eq_refl).
  discriminate.
Defined.

(** C2 as stated fails in two places.  Where the fallback assignment
    itself raises: the new tab is refused, the assignment throws, and the
    handler resolves with [{ success: false }].  And where
    [description] does not convert: the handler throws at
    [String(description)], before it has tried anything. *)
Lemma navigate_fallback_may_fail :
  let invocation :=
    navigate_invocation (JsString "https://example.com") (JsBool true) in
  let o := Panel.onClientTool popup_blocked_raising_env invocation ∅ in
  window_open popup_blocked_raising_env "https://example.com" = Normal None
  ∧ non_console (effects o)
    = [WindowOpen "https://example.com" "_blank" "noopener,noreferrer";
       LocationAssign "https://example.com"]
  ∧ result o = Normal {| success := false |}
  ∧ Panel.onClientTool popup_blocked_env
      (navigate_described (JsString "https://example.com") (JsBool true)
         unconvertible) ∅
    = {| result := Throw type_error; facts := ∅; effects := [] |}.
Proof. by vm_compute. Qed.

(** C10, as the code has it.  [open_in_new_tab] goes through [??] before
    [Boolean]: an absent param and [null] both fall to the default and
    take the new-tab path, as does every truthy value, the string
    "false" among them; the handler goes straight to the current tab
    only for a value that is present, not [null], and falsy, which in
    this model is [false], [0] or the empty string.  This is for an
    invocation that gets as far as navigating: [url] and [description]
    convert to strings and [url] is not empty. *)
Theorem open_in_new_tab_coercion (env : Env) (invocation : ToolInvocation)
    (s : gset string) :
  name invocation = "navigate_to_url" →
  converts (prop (params invocation) "url" ?? JsString "") = true →
  converts (prop (params invocation) "description" ?? JsString "") = true →
  let url := to_String (prop (params invocation) "url" ?? JsString "") in
  url ≠ "" →
  let raw := prop (params invocation) "open_in_new_tab" in
  let o := Panel.onClientTool env invocation s in
  (raw = JsUndefined ∨ raw = JsNull ∨ to_Boolean raw = true →
   ∃ rest, non_console (effects o)
           = WindowOpen url "_blank" "noopener,noreferrer" :: rest)
  ∧ (raw ≠ JsUndefined → raw ≠ JsNull → to_Boolean raw = false →
     non_console (effects o) = [LocationAssign url]
     ∧ (raw = JsBool false ∨ raw = JsNumber 0 ∨ raw = JsString ""))
  ∧ (params invocation !! "open_in_new_tab" = None → raw = JsUndefined)
  ∧ to_Boolean (JsString "false") = true.
Proof.
  intros Hn Hcu Hcd url Hurl raw o. subst o.
  rewrite navigate_dispatch by done.
  unfold Panel.handle_navigate_to_url. coerce. fold url raw.
  rewrite truthy_nonempty by done.
  split; [|split; [|split; [|done]]].
  - intros Hraw.
    assert (to_Boolean (raw ?? JsBool true) = true) as ->
      by (destruct Hraw as [->|[->|Hraw]]; [done..|by destruct raw]).
    unfold_monad. simpl.
    destruct (window_open env url) as [[w|]|e], (DEV env); simpl;
      try (by eexists).
    all: destruct (location_assign env url) as [[]|e']; by eexists.
  - intros H1 H2 Hraw.
    assert (to_Boolean (raw ?? JsBool true) = false) as ->
      by (by destruct raw).
    split.
    + unfold_monad. simpl.
      destruct (location_assign env url) as [[]|e], (DEV env); done.
    + destruct raw as [| |[]|n|r| |]; simpl in Hraw; try done.
      * by left.
      * right; left. f_equal. apply negb_false_iff in Hraw. lia.
      * right; right. f_equal. apply negb_false_iff in Hraw.
        by apply String.eqb_eq.
  - intros Habs. unfold raw, prop. by rewrite Habs.
Qed.

Lemma open_in_new_tab_coercion_witness :
  let invocation :=
    navigate_invocation (JsString "https://example.com") (JsString "false") in
  ∃ rest,
    non_console (effects (Panel.onClientTool friendly_env invocation ∅))
    = WindowOpen "https://example.com" "_blank" "noopener,noreferrer" :: rest.
Proof.
  intros invocation.
  refine (proj1 (open_in_new_tab_coercion friendly_env invocation ∅
                   eq_refl eq_refl eq_refl _) _).
  - discriminate.
  - right; right. reflexivity.
Defined.

(** C10 as stated fails at [null]: it is falsy, yet the handler opens a
    new tab and never assigns [window.location.href].  And a truthy
    value opens nothing when [description] does not convert: the
    handler throws before it looks at the flag. *)
Lemma null_open_in_new_tab_opens_new_tab :
  let invocation := navigate_invocation (JsString "https://example.com") JsNull in
  to_Boolean JsNull = false
  ∧ non_console (effects (Panel.onClientTool friendly_env invocation ∅))
    = [WindowOpen "https://example.com" "_blank" "noopener,noreferrer";
       WindowFocus]
  ∧ Panel.onClientTool friendly_env
      (navigate_described (JsString "https://example.com") (JsBool true)
         unconvertible) ∅
    = {| result := Throw type_error; facts := ∅; effects := [] |}.
Proof. by vm_compute. Qed.

(** ** The claims about widget actions *)

(** C6, as the code has it.  A [navigation.open] action without
    [payload.url] opens nothing in either copy of the panel.  In the
    copy with the local branches it is a no-op: four lines go to the
    console at level [log] and the handler resolves with [undefined],
    with no window opened, no link clicked, nothing fetched and no alert.
    The older copy relays it to the backend like any other action: one
    request is made, and the handler resolves with the parsed answer,
    or with [{ success: false, error }] when the relay fails.
    [processedFacts] is as it was in both. *)
Theorem navigation_open_without_url_is_noop (env : Env) (action : WidgetAction)
    (item : WidgetItem) (s : gset string) :
  action_type action = "navigation.open" →
  optional_prop (payload action) "url" = JsUndefined →
  let o := Panel.onAction env action item s in
  let o' := Legacy.onAction env action item s in
  (result o = Normal JsUndefined
   ∧ facts o = s
   ∧ non_console (effects o) = []
   ∧ Forall (fun e => ∃ msg, e = Console Log msg) (effects o))
  ∧ (facts o' = s
     ∧ non_console (effects o') = [Fetch (relay_request action item)]
     ∧ result o'
       = match fetch env (relay_request action item) with
         | Normal r =>
             match response_json r with
             | Normal v => Normal v
             | Throw e => Normal (relay_failure e)
             end
         | Throw e => Normal (relay_failure e)
         end).
Proof.
  intros Ht Hurl o o'. subst o o'. split.
  - unfold Panel.onAction. rewrite Ht. simpl.
    unfold Panel.handle_navigation_open. rewrite Hurl.
    unfold_monad. simpl. split_and!; [done..|].
    repeat constructor; by eexists.
  - unfold Legacy.onAction. rewrite Ht, Hurl. unfold_monad. simpl.
    destruct (fetch env (relay_request action item)) as [r|e]; simpl; [|done].
    by destruct (response_json r).
Qed.

Lemma navigation_open_without_url_is_noop_witness :
  let o := Panel.onAction popup_blocked_env
             (widget_action "navigation.open" ∅) sample_item ∅ in
  result o = Normal JsUndefined
  ∧ facts o = ∅
  ∧ non_console (effects o) = []
  ∧ Forall (fun e => ∃ msg, e = Console Log msg) (effects o).
Proof.
  exact (proj1 (navigation_open_without_url_is_noop popup_blocked_env
                  (widget_action "navigation.open" ∅) sample_item ∅
                  eq_refl eq_refl)).
Defined.

(** C6 as stated fails in the older copy of the panel: the action
    without a url costs a request to the backend, and when that request
    fails the handler resolves with a failure for the caller. *)
Lemma legacy_navigation_open_without_url_relays :
  let action := widget_action "navigation.open" ∅ in
  let o := Legacy.onAction offline_env action sample_item ∅ in
  optional_prop (payload action) "url" = JsUndefined
  ∧ non_console (effects o) = [Fetch (relay_request action sample_item)]
  ∧ result o = Normal (relay_failure {| message := "Failed to fetch" |})
  ∧ is_failed_result (relay_failure {| message := "Failed to fetch" |}) = true.
Proof. by vm_compute. Qed.

(** The older panel sends every action to the backend before it looks at
    the type, so there the same action costs a request. *)
Lemma legacy_navigation_open_relays_first (env : Env) (action : WidgetAction)
    (item : WidgetItem) (s : gset string) :
  ∃ rest, non_console (effects (Legacy.onAction env action item s))
          = Fetch (relay_request action item) :: rest.
Proof.
  unfold Legacy.onAction. unfold_monad. simpl.
  destruct (fetch env (relay_request action item)) as [r|e]; simpl;
    [|by eexists].
  destruct (response_json r) as [v|e]; simpl; [|by eexists].
  destruct (String.eqb (action_type action) "navigation.open"); simpl;
    [|by eexists].
  destruct (to_Boolean (optional_prop (payload action) "url")); simpl;
    [|by eexists].
  destruct (window_open env _) as [w|e]; simpl; by eexists.
Qed.

Lemma image_download_dispatch (env : Env) (action : WidgetAction)
    (item : WidgetItem) (s : gset string) :
  action_type action = "image.download"
  ∨ action_type action = "image_generation.download" →
  Panel.onAction env action item s
  = (console Log "[ChatKitPanel] 🔵 Widget action received:";;
     console Log "[ChatKitPanel] 🔵 Action payload:";;
     console Log "[ChatKitPanel] 🔵 Full action object:";;
     Panel.handle_image_download env action) s.
Proof. intros [H|H]; unfold Panel.onAction; by rewrite H. Qed.

(** C4, as the code has it.  In the download branch, with a truthy
    [payload.url], a [fetch] that rejects or answers with a status that
    is not ok is caught: the failure is logged, the user gets the alert,
    and the handler resolves, never rejects, with [undefined], which is
    also what it resolves with after a download that worked. *)
Theorem image_download_fetch_failure (env : Env) (action : WidgetAction)
    (item : WidgetItem) (s : gset string) :
  action_type action = "image.download"
  ∨ action_type action = "image_generation.download" →
  let url := optional_prop (payload action) "url" in
  to_Boolean url = true →
  (∃ e, fetch env (image_request url) = Throw e)
  ∨ (∃ r, fetch env (image_request url) = Normal r ∧ ok r = false) →
  let o := Panel.onAction env action item s in
  result o = Normal JsUndefined
  ∧ facts o = s
  ∧ non_console (effects o)
    = [Fetch (image_request url); Alert Panel.download_failed_notice]
  ∧ Console Error "[Widget] Failed to download image:" ∈ effects o.
Proof.
  intros Ht url Hurl Hfetch o. subst o.
  rewrite image_download_dispatch by done.
  unfold Panel.handle_image_download. fold url.
  unfold_monad. simpl. rewrite Hurl. simpl.
  destruct Hfetch as [[e ->]|(r & -> & Hok)]; simpl.
  - split_and!; [done..|]. by repeat constructor.
  - rewrite Hok. simpl. split_and!; [done..|]. by repeat constructor.
Qed.

Lemma image_download_fetch_failure_witness :
  let action :=
    widget_action "image.download"
      {[ "url" := JsString "https://unreachable.invalid/cat.png" ]} in
  let o := Panel.onAction offline_env action sample_item ∅ in
  result o = Normal JsUndefined
  ∧ facts o = ∅
  ∧ non_console (effects o)
    = [Fetch (image_request (JsString "https://unreachable.invalid/cat.png"));
       Alert Panel.download_failed_notice]
  ∧ Console Error "[Widget] Failed to download image:" ∈ effects o.
Proof.
  intros action.
  refine (image_download_fetch_failure offline_env action sample_item ∅
            (or_introl eq_refl) eq_refl _).
  left. by eexists.
Defined.

(** C4 as stated fails on what is returned: after the failed fetch the
    handler resolves with [undefined], which is no failed result, and it
    resolves with the same after a download that worked. *)
Lemma image_download_failure_returns_undefined :
  let action :=
    widget_action "image.download"
      {[ "url" := JsString "https://unreachable.invalid/cat.png" ]} in
  result (Panel.onAction offline_env action sample_item ∅) = Normal JsUndefined
  ∧ is_failed_result JsUndefined = false
  ∧ result (Panel.onAction friendly_env action sample_item ∅) = Normal JsUndefined.
Proof. by vm_compute. Qed.

Lemma relay_dispatch (env : Env) (action : WidgetAction) (item : WidgetItem)
    (s : gset string) :
  action_type action ≠ "navigation.open" →
  action_type action ≠ "image.download" →
  action_type action ≠ "image_generation.download" →
  Panel.onAction env action item s
  = (console Log "[ChatKitPanel] 🔵 Widget action received:";;
     console Log "[ChatKitPanel] 🔵 Action payload:";;
     console Log "[ChatKitPanel] 🔵 Full action object:";;
     Panel.handle_relay env action item) s.
Proof. intros H1 H2 H3. unfold Panel.onAction. by rewrite !eqb_neq_false. Qed.

(** What the relay branch resolves with: the parsed body when the request
    and the parsing complete, whatever [response.ok] and
    [response.status] say, and [{ success: false, error: message }] when
    either of them throws. *)
Lemma relay_result (env : Env) (action : WidgetAction) (item : WidgetItem)
    (s : gset string) :
  action_type action ≠ "navigation.open" →
  action_type action ≠ "image.download" →
  action_type action ≠ "image_generation.download" →
  result (Panel.onAction env action item s)
  = match fetch env (relay_request action item) with
    | Normal r =>
        match response_json r with
        | Normal v => Normal v
        | Throw e => Normal (relay_failure e)
        end
    | Throw e => Normal (relay_failure e)
    end.
Proof.
  intros H1 H2 H3. rewrite relay_dispatch by done.
  unfold Panel.handle_relay. unfold_monad. simpl.
  destruct (fetch env (relay_request action item)) as [r|e]; simpl; [|done].
  by destruct (response_json r).
Qed.

(** C5 at the failing input.  The backend answers a relayed action with
    status 500 and a JSON body: the handler resolves with that body as it
    is, and the body is no failed result.  Both copies of the panel do
    the same. *)
Theorem relay_returns_error_body_unchanged :
  let action := widget_action "facts.save" {[ "fact_id" := JsString "f1" ]} in
  ok error_response = false
  ∧ fetch failing_backend_env (relay_request action sample_item)
    = Normal error_response
  ∧ result (Panel.onAction failing_backend_env action sample_item ∅)
    = Normal error_body
  ∧ result (Legacy.onAction failing_backend_env action sample_item ∅)
    = Normal error_body
  ∧ is_failed_result error_body = false.
Proof. by vm_compute. Qed.

(** * Further properties of the handlers *)

(** ** The text handed to the persistence callback *)

Section normalisation.
Implicit Types (s t : string) (c : ascii) (b : bool).

Lemma space_is_whitespace : is_whitespace " " = true.
Proof. reflexivity. Qed.

Lemma strip_whitespace_replace_ws_go b s :
  strip_whitespace (replace_ws_go b s) = strip_whitespace s.
Proof.
  revert b. induction s as [|c s IH]; intros b; [done|]. simpl.
  destruct (is_whitespace c) eqn:Hc.
  - destruct b; simpl; by rewrite ?space_is_whitespace, IH.
  - simpl. by rewrite Hc, IH.
Qed.

Lemma strip_whitespace_trimStart s :
  strip_whitespace (trimStart s) = strip_whitespace s.
Proof.
  induction s as [|c s IH]; [done|]. simpl.
  destruct (is_whitespace c) eqn:Hc; [done|]. simpl. by rewrite Hc.
Qed.

Lemma strip_whitespace_trimEnd s :
  strip_whitespace (trimEnd s) = strip_whitespace s.
Proof.
  induction s as [|c s IH]; [done|]. simpl. rewrite <- IH.
  destruct (trimEnd s) as [|d t]; destruct (is_whitespace c) eqn:Hc;
    simpl; by rewrite ?Hc.
Qed.

Lemma length_replace_ws_go b s :
  String.length (replace_ws_go b s) ≤ String.length s.
Proof.
  revert b. induction s as [|c s IH]; intros b; [done|]. simpl.
  destruct (is_whitespace c); [destruct b|]; simpl;
    pose proof (IH true); pose proof (IH false); lia.
Qed.

Lemma length_trimStart s : String.length (trimStart s) ≤ String.length s.
Proof.
  induction s as [|c s IH]; [done|]. simpl.
  destruct (is_whitespace c); simpl; lia.
Qed.

Lemma length_trimEnd s : String.length (trimEnd s) ≤ String.length s.
Proof.
  induction s as [|c s IH]; [done|]. simpl.
  destruct (trimEnd s); [destruct (is_whitespace c)|]; simpl in *; lia.
Qed.

Lemma single_spaced_replace_ws_go b s :
  single_spaced_go b (replace_ws_go b s) = true.
Proof.
  revert b. induction s as [|c s IH]; intros b; [done|]. simpl.
  destruct (is_whitespace c) eqn:Hc.
  - destruct b; [apply IH|]. simpl. apply IH.
  - simpl. rewrite Hc. apply IH.
Qed.

Lemma well_spaced_trimEnd b s :
  single_spaced_go b s = true →
  trimEnd s = "" ∨ (trimEnd s ≠ "" ∧ well_spaced_go b (trimEnd s) = true).
Proof.
  revert b. induction s as [|c s IH]; intros b H; [by left|]. simpl in *.
  destruct (is_whitespace c) eqn:Hc.
  - apply andb_prop in H as [H1 H3].
    destruct (IH true H3) as [->|[Hne Hw]]; [by left|]. right.
    destruct (trimEnd s) as [|d t]; [done|]. split; [done|].
    cbn [well_spaced_go]. rewrite Hc, H1. exact Hw.
  - right. destruct (IH false H) as [->|[Hne Hw]].
    + split; [done|]. simpl. by rewrite Hc.
    + destruct (trimEnd s) as [|d t]; [done|]. split; [done|].
      cbn [well_spaced_go]. rewrite Hc. exact Hw.
Qed.

Lemma trimStart_head s c t : trimStart s = String c t → is_whitespace c = false.
Proof.
  induction s as [|d s IH]; [done|]. simpl.
  destruct (is_whitespace d) eqn:Hd; [done|]. intros ?. by simplify_eq.
Qed.

Lemma well_spaced_normalized s : well_spaced (trim (replace_ws s)) = true.
Proof.
  unfold trim, replace_ws. rewrite trimStart_replace_ws_go.
  destruct (trimStart s) as [|c t] eqn:Ht; [done|].
  pose proof (trimStart_head _ _ _ Ht) as Hc.
  assert (replace_ws_go false (String c t)
          = String c (replace_ws_go false t)) as ->
    by (simpl; by rewrite Hc).
  set (x := String c (replace_ws_go false t)).
  assert (Hss : single_spaced_go true x = true).
  { unfold x. simpl. rewrite Hc. apply single_spaced_replace_ws_go. }
  destruct (well_spaced_trimEnd true x Hss) as [->|[Hne H]]; [done|].
  unfold well_spaced. by destruct (trimEnd x).
Qed.

Lemma well_spaced_go_replace b s :
  well_spaced_go b s = true → replace_ws_go b s = s.
Proof.
  revert b. induction s as [|c s IH]; intros b H; [done|]. simpl in *.
  destruct (is_whitespace c) eqn:Hc.
  - apply andb_prop in H as [H1 H3]. apply andb_prop in H1 as [H1 H2].
    apply negb_true_iff in H2 as ->. apply Ascii.eqb_eq in H1 as ->.
    by rewrite (IH true H3).
  - by rewrite (IH false H).
Qed.

Lemma well_spaced_go_trimEnd b s : well_spaced_go b s = true → trimEnd s = s.
Proof.
  revert b. induction s as [|c s IH]; intros b H; [done|]. simpl in *.
  destruct (is_whitespace c) eqn:Hc.
  - apply andb_prop in H as [_ H3]. rewrite (IH true H3).
    by destruct s.
  - rewrite (IH false H). by destruct s.
Qed.

Lemma well_spaced_fixed s : well_spaced s = true → trim (replace_ws s) = s.
Proof.
  destruct s as [|c s]; [done|]. unfold well_spaced, trim, replace_ws.
  intros H. assert (Hc : is_whitespace c = false).
  { simpl in H. destruct (is_whitespace c); [|done].
    apply andb_prop in H as [H _]. by apply andb_prop in H as [_ ?]. }
  assert (replace_ws_go false (String c s) = String c s) as ->.
  { simpl in *. rewrite Hc in *. by rewrite (well_spaced_go_replace false s). }
  assert (trimStart (String c s) = String c s) as -> by (simpl; by rewrite Hc).
  by apply (well_spaced_go_trimEnd true).
Qed.

Lemma normalized_empty_iff s :
  trim (replace_ws s) = "" ↔ all_whitespace s = true.
Proof.
  unfold trim, replace_ws. rewrite trimStart_replace_ws_go.
  induction s as [|c s IH]; [done|]. simpl.
  destruct (is_whitespace c) eqn:Hc; [exact IH|]. simpl. rewrite Hc.
  split; [|done]. cbn [trimEnd]. rewrite Hc.
  by destruct (trimEnd (replace_ws_go false s)).
Qed.

Lemma strip_whitespace_normalized s :
  strip_whitespace (trim (replace_ws s)) = strip_whitespace s.
Proof.
  unfold trim, replace_ws.
  by rewrite strip_whitespace_trimEnd, strip_whitespace_trimStart,
    strip_whitespace_replace_ws_go.
Qed.
End normalisation.

(** X1.  Normalising twice is normalising once. *)
Theorem normalisation_idempotent (s : string) :
  trim (replace_ws (trim (replace_ws s))) = trim (replace_ws s).
Proof. apply well_spaced_fixed, well_spaced_normalized. Qed.

(** X2.  Normalising drops whitespace only: the other characters stay, in
    their order, and the text does not grow. *)
Theorem normalisation_keeps_the_words (s : string) :
  strip_whitespace (trim (replace_ws s)) = strip_whitespace s
  ∧ String.length (trim (replace_ws s)) ≤ String.length s.
Proof.
  split; [apply strip_whitespace_normalized|]. unfold trim, replace_ws.
  - etrans; [apply length_trimEnd|]. etrans; [apply length_trimStart|].
    apply length_replace_ws_go.
Qed.

(** X3.  Whatever [record_fact] hands to the persistence callback is a
    [save] action with a non-empty id that is in the set by then, and a
    text in normal form: words separated by single spaces, no whitespace
    at either end, made of the non-whitespace characters of the coerced
    [fact_text]. *)
Theorem saved_fact_is_normalized (env : Env) (invocation : ToolInvocation)
    (s : gset string) (a : FactAction) :
  WidgetActionCall a ∈ effects (Panel.onClientTool env invocation s) →
  let text := to_String (prop (params invocation) "fact_text" ?? JsString "") in
  name invocation = "record_fact"
  ∧ fa_type a = "save"
  ∧ factId a = to_String (prop (params invocation) "fact_id" ?? JsString "")
  ∧ factId a ≠ ""
  ∧ (factId a ∉ s)
  ∧ well_spaced (factText a) = true
  ∧ strip_whitespace (factText a) = strip_whitespace text.
Proof.
  intros Ha text. unfold Panel.onClientTool in Ha.
  destruct (String.eqb (name invocation) "switch_theme") eqn:H1.
  { destruct (quiet_handle_switch_theme env invocation s) as [_ Hq].
    rewrite Forall_forall in Hq. by apply Hq in Ha. }
  destruct (String.eqb (name invocation) "record_fact") eqn:H2.
  - apply String.eqb_eq in H2.
    destruct (handle_record_fact_cases invocation s)
      as [[_ H]|[(_ & _ & _ & H)|(_ & _ & Hid & Hin & H)]];
      rewrite H in Ha; simpl in Ha; [by inversion Ha..|].
    apply elem_of_cons in Ha as [?|Ha]; [done|].
    apply list_elem_of_singleton in Ha. simplify_eq. simpl.
    split_and!; try done.
    + apply well_spaced_normalized.
    + apply strip_whitespace_normalized.
  - destruct (String.eqb (name invocation) "navigate_to_url").
    + destruct (quiet_handle_navigate_to_url env invocation s) as [_ Hq].
      rewrite Forall_forall in Hq. by apply Hq in Ha.
    + by inversion Ha.
Qed.

(** X4.  A fact whose text is missing or blank is saved all the same, with
    the empty text: once both params have been converted to strings, the
    handler checks the id, never the text. *)
Theorem blank_fact_text_is_saved_empty (env : Env) (invocation : ToolInvocation)
    (s : gset string) :
  name invocation = "record_fact" →
  converts (prop (params invocation) "fact_id" ?? JsString "") = true →
  converts (prop (params invocation) "fact_text" ?? JsString "") = true →
  let id := to_String (prop (params invocation) "fact_id" ?? JsString "") in
  let text := to_String (prop (params invocation) "fact_text" ?? JsString "") in
  id ≠ "" → id ∉ s →
  all_whitespace text = true →
  Panel.onClientTool env invocation s
  = {| result := Normal {| success := true |};
       facts := {[ id ]} ∪ s;
       effects := [SetAdd id;
                   WidgetActionCall {| fa_type := "save"; factId := id;
                                       factText := "" |}] |}.
Proof.
  intros Hn Hcid Hctext id text Hid Hin Hws.
  rewrite record_fact_dispatch by done.
  rewrite handle_record_fact_save by done. fold id text.
  by rewrite (proj2 (normalized_empty_iff text) Hws).
Qed.

Lemma blank_fact_text_is_saved_empty_witness :
  effects (Panel.onClientTool friendly_env
             {| name := "record_fact";
                params := {[ "fact_id" := JsNumber 7 ]} |} ∅)
  = [SetAdd "7";
     WidgetActionCall {| fa_type := "save"; factId := "7"; factText := "" |}].
Proof.
  pose proof (blank_fact_text_is_saved_empty friendly_env
                {| name := "record_fact";
                   params := {[ "fact_id" := JsNumber 7 ]} |} ∅
                eq_refl eq_refl eq_refl) as H.
  cbv zeta in H. rewrite H; [done|discriminate|apply not_elem_of_empty|done].
Defined.

Lemma saved_fact_is_normalized_witness :
  let invocation :=
    record_fact_invocation (JsString "f1") (JsString " likes   tea ") in
  let a := {| fa_type := "save"; factId := "f1"; factText := "likes tea" |} in
  WidgetActionCall a ∈ effects (Panel.onClientTool friendly_env invocation ∅)
  ∧ well_spaced (factText a) = true
  ∧ strip_whitespace (factText a) = "likestea".
Proof.
  intros invocation a.
  assert (Ha : WidgetActionCall a
               ∈ effects (Panel.onClientTool friendly_env invocation ∅))
    by (vm_compute; by repeat constructor).
  pose proof (saved_fact_is_normalized friendly_env invocation ∅ a Ha)
    as (_ & _ & _ & _ & _ & H1 & H2).
  split; [exact Ha|]. split; [exact H1|exact H2].
Defined.

(** ** Dispatch and the other tools *)

Lemma switch_theme_dispatch (env : Env) (invocation : ToolInvocation) :
  name invocation = "switch_theme" →
  Panel.onClientTool env invocation = handle_switch_theme env invocation
  ∧ Legacy.onClientTool env invocation = handle_switch_theme env invocation.
Proof.
  intros Hn. unfold Panel.onClientTool, Legacy.onClientTool. by rewrite Hn.
Qed.

Lemma strict_eq_str_true (v : JsValue) (lit : string) :
  strict_eq_str v lit = true ↔ v = JsString lit.
Proof.
  destruct v; simpl; try (split; [done|by intros ?]).
  rewrite String.eqb_eq. split; [by intros ->|by intros [= ->]].
Qed.

(** X5.  [switch_theme] succeeds exactly on the strings "light" and "dark":
    then the theme callback is called once with that value; on any other
    value, also a missing one or a string in another case, the handler
    answers [{ success: false }] and calls nothing.  The set of facts is
    never touched. *)
Theorem switch_theme_accepts_light_and_dark (env : Env)
    (invocation : ToolInvocation) (s : gset string) :
  name invocation = "switch_theme" →
  let requested := prop (params invocation) "theme" in
  let o := Panel.onClientTool env invocation s in
  (requested = JsString "light" ∨ requested = JsString "dark" →
   result o = Normal {| success := true |}
   ∧ non_console (effects o) = [ThemeRequest requested]
   ∧ facts o = s)
  ∧ (requested ≠ JsString "light" → requested ≠ JsString "dark" →
     o = {| result := Normal {| success := false |}; facts := s; effects := [] |}).
Proof.
  intros Hn requested o. subst o.
  rewrite (proj1 (switch_theme_dispatch env invocation Hn)).
  unfold handle_switch_theme. fold requested. split.
  - intros H.
    assert (strict_eq_str requested "light" || strict_eq_str requested "dark"
            = true) as ->
      by (apply orb_true_iff; by rewrite !strict_eq_str_true).
    unfold_monad. by destruct (DEV env).
  - intros H1 H2.
    assert (strict_eq_str requested "light" || strict_eq_str requested "dark"
            = false) as ->; [|done].
    apply orb_false_iff.
    split; apply not_true_is_false; by rewrite strict_eq_str_true.
Qed.

Lemma switch_theme_accepts_light_and_dark_witness :
  Panel.onClientTool friendly_env (switch_theme_invocation (JsString "Dark")) ∅
  = {| result := Normal {| success := false |}; facts := ∅; effects := [] |}.
Proof.
  refine (proj2 (switch_theme_accepts_light_and_dark friendly_env
                   (switch_theme_invocation (JsString "Dark")) ∅ eq_refl) _ _);
    discriminate.
Defined.

(** X6.  [navigate_to_url] with a url that is missing, [null] or coerces to
    the empty string, and a description that converts, answers
    [{ success: false }] before anything is done, the debug line
    included.  Both copies of the panel agree. *)
Theorem navigate_without_url_does_nothing (env : Env)
    (invocation : ToolInvocation) (s : gset string) :
  name invocation = "navigate_to_url" →
  js_String (prop (params invocation) "url" ?? JsString "") = Normal "" →
  converts (prop (params invocation) "description" ?? JsString "") = true →
  Panel.onClientTool env invocation s
  = {| result := Normal {| success := false |}; facts := s; effects := [] |}
  ∧ Legacy.onClientTool env invocation s
    = {| result := Normal {| success := false |}; facts := s; effects := [] |}.
Proof.
  intros Hn Hurl Hcd. unfold Panel.onClientTool, Legacy.onClientTool.
  rewrite Hn. simpl.
  unfold Panel.handle_navigate_to_url, Legacy.handle_navigate_to_url.
  rewrite Hurl. by coerce.
Qed.

Lemma navigate_without_url_does_nothing_witness :
  Panel.onClientTool (with_DEV true friendly_env)
    {| name := "navigate_to_url";
       params := {[ "open_in_new_tab" := JsBool true ]} |} ∅
  = {| result := Normal {| success := false |}; facts := ∅; effects := [] |}.
Proof.
  exact (proj1 (navigate_without_url_does_nothing (with_DEV true friendly_env)
                  {| name := "navigate_to_url";
                     params := {[ "open_in_new_tab" := JsBool true ]} |} ∅
                  eq_refl eq_refl eq_refl)).
Defined.

(** *** Handlers that never reject *)

Lemma result_after {A} (t : list Effect) (o : Outcome A) :
  result (after t o) = result o.
Proof. by destruct o. Qed.

Lemma resolves_ret {A} (a : A) : resolves (mret a).
Proof. intros s. by eexists. Qed.

Lemma resolves_emit (e : Effect) : resolves (emit e).
Proof. intros s. by eexists. Qed.

Lemma resolves_console (lvl : Level) (msg : string) : resolves (console lvl msg).
Proof. apply resolves_emit. Qed.

Lemma resolves_bind {A B} (m : M A) (f : A → M B) :
  resolves m → (∀ a, resolves (f a)) → resolves (m ≫= f).
Proof.
  intros Hm Hf s. unfold mbind, M_bind, bind.
  destruct (Hm s) as [a Ha]. destruct (m s) as [r s' t]. simpl in Ha. subst r.
  rewrite result_after. apply Hf.
Qed.

Lemma resolves_try_catch {A} (m : M A) (h : JsError → M A) :
  (∀ e, resolves (h e)) → resolves (try_catch m h).
Proof.
  intros Hh s. unfold try_catch. destruct (m s) as [[a|e] s' t].
  - by eexists.
  - rewrite result_after. apply Hh.
Qed.

Lemma resolves_when (b : bool) (m : M unit) : resolves m → resolves (when b m).
Proof. destruct b; [done|]. intros _. apply resolves_ret. Qed.

Lemma resolves_set_has (id : string) : resolves (set_has id).
Proof. intros s. by eexists. Qed.

Lemma resolves_set_add (id : string) : resolves (set_add id).
Proof. intros s. by eexists. Qed.

Create HintDb resolves.

#[global] Hint Resolve resolves_ret resolves_emit resolves_console
  resolves_when resolves_set_has resolves_set_add : resolves.

Ltac resolves_step :=
  first
    [ apply resolves_try_catch; intros ?
    | apply resolves_bind; [|intros ?]
    | match goal with
      | |- resolves (if ?b then _ else _) => destruct b
      end
    | solve [auto with resolves] ].

Ltac solve_resolves := repeat resolves_step.

Lemma navigate_resolves (env : Env) (invocation : ToolInvocation)
    (s : gset string) :
  converts (prop (params invocation) "url" ?? JsString "") = true →
  converts (prop (params invocation) "description" ?? JsString "") = true →
  (∃ r, result (Panel.handle_navigate_to_url env invocation s) = Normal r)
  ∧ (∃ r, result (Legacy.handle_navigate_to_url env invocation s) = Normal r).
Proof.
  intros Hcu Hcd.
  unfold Panel.handle_navigate_to_url, Legacy.handle_navigate_to_url. coerce.
  split.
  - match goal with
    | |- ∃ r, result (?m s) = Normal r => revert s; change (resolves m)
    end.
    solve_resolves.
  - match goal with
    | |- ∃ r, result (?m s) = Normal r => revert s; change (resolves m)
    end.
    solve_resolves.
Qed.

Lemma switch_theme_resolves (env : Env) (invocation : ToolInvocation) :
  resolves (handle_switch_theme env invocation).
Proof. unfold handle_switch_theme. solve_resolves. Qed.

(** X7.  [onClientTool] rejects in one situation only: a [String(...)]
    call at the head of the [record_fact] or the [navigate_to_url]
    branch is given a value that does not convert, and then it rejects
    with that [TypeError].  Nothing the browser does makes it reject:
    the calls into the browser sit inside the [try].  Both copies. *)
Theorem onClientTool_rejects_only_on_coercion (env : Env)
    (invocation : ToolInvocation) (s : gset string) (e : JsError) :
  let fails k := converts (prop (params invocation) k ?? JsString "") = false in
  let bad_params :=
    (name invocation = "record_fact" ∧ (fails "fact_id" ∨ fails "fact_text"))
    ∨ (name invocation = "navigate_to_url" ∧ (fails "url" ∨ fails "description")) in
  (result (Panel.onClientTool env invocation s) = Throw e
   ↔ e = type_error ∧ bad_params)
  ∧ (result (Legacy.onClientTool env invocation s) = Throw e
     ↔ e = type_error ∧ bad_params).
Proof.
  intros fails bad_params. subst fails bad_params. cbv beta.
  unfold Panel.onClientTool, Legacy.onClientTool.
  destruct (String.eqb (name invocation) "switch_theme") eqn:H1.
  { apply String.eqb_eq in H1.
    destruct (switch_theme_resolves env invocation s) as [r ->].
    split; (split; [done|]); intros [_ [[Hn _]|[Hn _]]]; congruence. }
  destruct (String.eqb (name invocation) "record_fact") eqn:H2.
  { apply String.eqb_eq in H2.
    destruct (handle_record_fact_cases invocation s)
      as [[H ->]|[(Hi & Ht & _ & ->)|(Hi & Ht & _ & _ & ->)]]; simpl.
    - split; (split; [intros [= <-]; split; [done|by left]|by intros [-> _]]).
    - split; (split; [done|]);
        intros [_ [[_ [?|?]]|[Hn _]]]; congruence.
    - split; (split; [done|]);
        intros [_ [[_ [?|?]]|[Hn _]]]; congruence. }
  destruct (String.eqb (name invocation) "navigate_to_url") eqn:H3.
  { apply String.eqb_eq in H3. apply String.eqb_neq in H2.
    destruct (converts (prop (params invocation) "url" ?? JsString "")) eqn:Hu;
      [destruct (converts (prop (params invocation) "description" ?? JsString ""))
         eqn:Hd|].
    - destruct (navigate_resolves env invocation s Hu Hd) as [[r ->] [r' ->]].
      split; (split; [done|]); intros [_ [[Hn _]|[_ [?|?]]]]; congruence.
    - destruct (navigate_throws env invocation s (or_intror Hd)) as [-> ->].
      simpl.
      split; (split; [intros [= <-]; split; [done|]; right; split; [done|by right]
                     |by intros [-> _]]).
    - destruct (navigate_throws env invocation s (or_introl Hu)) as [-> ->].
      simpl.
      split; (split; [intros [= <-]; split; [done|]; right; split; [done|by left]
                     |by intros [-> _]]). }
  apply String.eqb_neq in H2, H3. simpl.
  split; (split; [done|]); intros [_ [[Hn _]|[Hn _]]]; congruence.
Qed.

Lemma onClientTool_rejects_only_on_coercion_witness :
  result (Panel.onClientTool popup_blocked_raising_env
            (navigate_described (JsString "https://example.com") (JsBool true)
               unconvertible) ∅)
  = Throw type_error.
Proof.
  refine (proj2 (proj1 (onClientTool_rejects_only_on_coercion
                          popup_blocked_raising_env
                          (navigate_described (JsString "https://example.com")
                             (JsBool true) unconvertible) ∅ type_error)) _).
  split; [done|]. right. split; [done|]. by right.
Defined.

(** X8.  The tools other than [record_fact] leave the set of facts as it was
    and never reach the persistence callback. *)
Theorem other_tools_leave_facts_alone (env : Env) (invocation : ToolInvocation)
    (s : gset string) :
  name invocation ≠ "record_fact" →
  facts (Panel.onClientTool env invocation s) = s
  ∧ Forall (fun e => is_fact_effect e = false)
      (effects (Panel.onClientTool env invocation s)).
Proof.
  intros Hn. unfold Panel.onClientTool.
  destruct (String.eqb (name invocation) "switch_theme");
    [apply quiet_handle_switch_theme|].
  rewrite eqb_neq_false by done.
  destruct (String.eqb (name invocation) "navigate_to_url");
    [apply quiet_handle_navigate_to_url|].
  apply (quiet_ret (A := ToolResult)).
Qed.

Lemma other_tools_leave_facts_alone_witness :
  let o := Panel.onClientTool popup_blocked_env
             (navigate_invocation (JsString "https://example.com") JsNull)
             {[ "f1" ]} in
  facts o = {[ "f1" ]}
  ∧ Forall (fun e => is_fact_effect e = false) (effects o).
Proof.
  refine (other_tools_leave_facts_alone popup_blocked_env
            (navigate_invocation (JsString "https://example.com") JsNull)
            {[ "f1" ]} _).
  discriminate.
Defined.

Lemma quiet_legacy_onAction env action item :
  quiet (Legacy.onAction env action item).
Proof.
  unfold Legacy.onAction, window_open_call, fetch_call.
  solve_quiet.
Qed.

(** X9.  A widget action, whatever its type and however the browser and the
    backend answer, leaves the set of facts as it was and never reaches
    the persistence callback.  Both copies. *)
Theorem widget_actions_leave_facts_alone (env : Env) (action : WidgetAction)
    (item : WidgetItem) (s : gset string) :
  (facts (Panel.onAction env action item s) = s
   ∧ Forall (fun e => is_fact_effect e = false)
       (effects (Panel.onAction env action item s)))
  ∧ (facts (Legacy.onAction env action item s) = s
     ∧ Forall (fun e => is_fact_effect e = false)
         (effects (Legacy.onAction env action item s))).
Proof. split; [apply quiet_onAction|apply quiet_legacy_onAction]. Qed.

(** ** Navigation by tool *)

(** X10.  [navigate_to_url] reports success only when a navigation call has
    completed, to the coerced url: either [window.open] gave a window,
    or the assignment to [window.location.href] went through.  It
    reports failure, for a non-empty url, only when one of the two calls
    it made has thrown. *)
Theorem navigate_success_means_navigated (env : Env)
    (invocation : ToolInvocation) (s : gset string) :
  name invocation = "navigate_to_url" →
  let url := to_String (prop (params invocation) "url" ?? JsString "") in
  let o := Panel.onClientTool env invocation s in
  (result o = Normal {| success := true |} →
   url ≠ ""
   ∧ ((window_open env url = Normal (Some NewWindow)
       ∧ WindowOpen url "_blank" "noopener,noreferrer" ∈ effects o)
      ∨ (location_assign env url = Normal tt
         ∧ LocationAssign url ∈ effects o)))
  ∧ (result o = Normal {| success := false |} → url ≠ "" →
     (∃ e, window_open env url = Throw e) ∨ (∃ e, location_assign env url = Throw e)).
Proof.
  intros Hn url o. subst o. rewrite navigate_dispatch by done.
  destruct (converts (prop (params invocation) "url" ?? JsString "")) eqn:Hcu;
    [|by rewrite (proj1 (navigate_throws env invocation s (or_introl Hcu)))].
  destruct (converts (prop (params invocation) "description" ?? JsString ""))
    eqn:Hcd;
    [|by rewrite (proj1 (navigate_throws env invocation s (or_intror Hcd)))].
  unfold Panel.handle_navigate_to_url. coerce. fold url.
  destruct (decide (url = "")) as [Hurl|Hurl]; [by rewrite Hurl|].
  rewrite truthy_nonempty by done.
  destruct (to_Boolean (prop (params invocation) "open_in_new_tab" ?? JsBool true));
    unfold_monad; simpl.
  - destruct (window_open env url) as [[[]|]|e] eqn:Hopen; simpl.
    + split; [intros _|by destruct (DEV env)]. split; [done|]. left.
      split; [done|]. destruct (DEV env); simpl; by repeat constructor.
    + destruct (location_assign env url) as [[]|e] eqn:Hassign; simpl.
      * split; [intros _|by destruct (DEV env)]. split; [done|]. right.
        split; [done|]. destruct (DEV env); simpl; by repeat constructor.
      * split; [by destruct (DEV env)|]. intros _ _. right. by eexists.
    + split; [by destruct (DEV env)|]. intros _ _. left. by eexists.
  - destruct (location_assign env url) as [[]|e] eqn:Hassign; simpl.
    + split; [intros _|by destruct (DEV env)]. split; [done|]. right.
      split; [done|]. destruct (DEV env); simpl; by repeat constructor.
    + split; [by destruct (DEV env)|]. intros _ _. right. by eexists.
Qed.

Lemma navigate_success_means_navigated_witness :
  let invocation :=
    navigate_invocation (JsString "https://example.com") (JsBool false) in
  let o := Panel.onClientTool friendly_env invocation ∅ in
  result o = Normal {| success := true |}
  ∧ ((window_open friendly_env "https://example.com" = Normal (Some NewWindow)
      ∧ WindowOpen "https://example.com" "_blank" "noopener,noreferrer"
        ∈ effects o)
     ∨ (location_assign friendly_env "https://example.com" = Normal tt
        ∧ LocationAssign "https://example.com" ∈ effects o)).
Proof.
  intros invocation o.
  assert (H : result o = Normal {| success := true |}) by reflexivity.
  split; [exact H|].
  exact (proj2 (proj1 (navigate_success_means_navigated friendly_env
                         invocation ∅ eq_refl) H)).
Defined.

(** X11.  When the params convert and the new tab opens, the handler
    focuses it and leaves the current tab where it is. *)
Theorem navigate_new_tab_opened (env : Env) (invocation : ToolInvocation)
    (s : gset string) :
  name invocation = "navigate_to_url" →
  converts (prop (params invocation) "url" ?? JsString "") = true →
  converts (prop (params invocation) "description" ?? JsString "") = true →
  let url := to_String (prop (params invocation) "url" ?? JsString "") in
  url ≠ "" →
  to_Boolean (prop (params invocation) "open_in_new_tab" ?? JsBool true) = true →
  window_open env url = Normal (Some NewWindow) →
  let o := Panel.onClientTool env invocation s in
  result o = Normal {| success := true |}
  ∧ non_console (effects o)
    = [WindowOpen url "_blank" "noopener,noreferrer"; WindowFocus]
  ∧ facts o = s.
Proof.
  intros Hn Hcu Hcd url Hurl Hnew Hopen o. subst o.
  rewrite navigate_dispatch by done.
  unfold Panel.handle_navigate_to_url. coerce. fold url.
  rewrite truthy_nonempty by done. rewrite Hnew.
  unfold_monad. simpl. rewrite Hopen. simpl. by destruct (DEV env).
Qed.

Lemma navigate_new_tab_opened_witness :
  let o := Panel.onClientTool friendly_env
             {| name := "navigate_to_url";
                params := {[ "url" := JsString "https://example.com" ]} |} ∅ in
  result o = Normal {| success := true |}
  ∧ non_console (effects o)
    = [WindowOpen "https://example.com" "_blank" "noopener,noreferrer";
       WindowFocus]
  ∧ facts o = ∅.
Proof.
  refine (navigate_new_tab_opened friendly_env
            {| name := "navigate_to_url";
               params := {[ "url" := JsString "https://example.com" ]} |} ∅
            eq_refl eq_refl eq_refl _ eq_refl eq_refl).
  discriminate.
Defined.

(** X12.  The fallback to the current tab is for a refused window only: when
    the params convert and [window.open] throws, nothing more is tried,
    the failure is logged and the handler answers [{ success: false }]. *)
Theorem navigate_window_open_throws (env : Env) (invocation : ToolInvocation)
    (s : gset string) (e : JsError) :
  name invocation = "navigate_to_url" →
  converts (prop (params invocation) "url" ?? JsString "") = true →
  converts (prop (params invocation) "description" ?? JsString "") = true →
  let url := to_String (prop (params invocation) "url" ?? JsString "") in
  url ≠ "" →
  to_Boolean (prop (params invocation) "open_in_new_tab" ?? JsBool true) = true →
  window_open env url = Throw e →
  let o := Panel.onClientTool env invocation s in
  result o = Normal {| success := false |}
  ∧ non_console (effects o) = [WindowOpen url "_blank" "noopener,noreferrer"]
  ∧ Console Error "[ChatKitPanel] Navigation failed" ∈ effects o.
Proof.
  intros Hn Hcu Hcd url Hurl Hnew Hopen o. subst o.
  rewrite navigate_dispatch by done.
  unfold Panel.handle_navigate_to_url. coerce. fold url.
  rewrite truthy_nonempty by done. rewrite Hnew.
  unfold_monad. simpl. rewrite Hopen. simpl.
  destruct (DEV env); simpl; split_and!; try done; by repeat constructor.
Qed.

Lemma navigate_window_open_throws_witness :
  let o := Panel.onClientTool popup_raising_env
             (navigate_invocation (JsString "https://example.com") (JsBool true))
             ∅ in
  result o = Normal {| success := false |}
  ∧ non_console (effects o)
    = [WindowOpen "https://example.com" "_blank" "noopener,noreferrer"]
  ∧ Console Error "[ChatKitPanel] Navigation failed" ∈ effects o.
Proof.
  refine (navigate_window_open_throws popup_raising_env
            (navigate_invocation (JsString "https://example.com") (JsBool true))
            ∅ {| message := "SyntaxError" |} eq_refl eq_refl eq_refl _
            eq_refl eq_refl).
  discriminate.
Defined.

(** X13.  The older panel reads [open_in_new_tab] and ignores it: for
    params that convert and a non-empty url it assigns
    [window.location.href] and does nothing else to the browser, and it
    answers by whether the assignment went through. *)
Theorem legacy_navigate_stays_in_tab (env : Env) (invocation : ToolInvocation)
    (s : gset string) :
  name invocation = "navigate_to_url" →
  converts (prop (params invocation) "url" ?? JsString "") = true →
  converts (prop (params invocation) "description" ?? JsString "") = true →
  let url := to_String (prop (params invocation) "url" ?? JsString "") in
  url ≠ "" →
  let o := Legacy.onClientTool env invocation s in
  non_console (effects o) = [LocationAssign url]
  ∧ facts o = s
  ∧ result o
    = Normal {| success := match location_assign env url with
                           | Normal _ => true
                           | Throw _ => false
                           end |}.
Proof.
  intros Hn Hcu Hcd url Hurl o. subst o.
  unfold Legacy.onClientTool. rewrite Hn. simpl.
  unfold Legacy.handle_navigate_to_url. coerce. fold url.
  rewrite truthy_nonempty by done. unfold_monad. simpl.
  by destruct (location_assign env url) as [[]|e], (DEV env).
Qed.

Lemma legacy_navigate_stays_in_tab_witness :
  let o := Legacy.onClientTool friendly_env
             (navigate_invocation (JsString "https://example.com") (JsBool true))
             ∅ in
  non_console (effects o) = [LocationAssign "https://example.com"]
  ∧ facts o = ∅
  ∧ result o = Normal {| success := true |}.
Proof.
  refine (legacy_navigate_stays_in_tab friendly_env
            (navigate_invocation (JsString "https://example.com") (JsBool true))
            ∅ eq_refl eq_refl eq_refl _).
  discriminate.
Defined.

(** ** Navigation by widget *)

Lemma navigation_open_dispatch (env : Env) (action : WidgetAction)
    (item : WidgetItem) (s : gset string) :
  action_type action = "navigation.open" →
  Panel.onAction env action item s
  = (console Log "[ChatKitPanel] 🔵 Widget action received:";;
     console Log "[ChatKitPanel] 🔵 Action payload:";;
     console Log "[ChatKitPanel] 🔵 Full action object:";;
     Panel.handle_navigation_open env action) s.
Proof. intros H. unfold Panel.onAction. by rewrite H. Qed.

(** X14.  A [navigation.open] action with a url whose window is refused clicks
    a hidden link to the same url, with target [_blank], appended to the
    document for the click and removed after it; unlike the tool, it
    never sends the current tab anywhere. *)
Theorem widget_navigation_blocked_clicks_link (env : Env)
    (action : WidgetAction) (item : WidgetItem) (s : gset string) :
  action_type action = "navigation.open" →
  let url := optional_prop (payload action) "url" in
  to_Boolean url = true →
  window_open env (to_String url) = Normal None →
  let o := Panel.onAction env action item s in
  let link := fallback_link (to_String url) in
  result o = Normal JsUndefined
  ∧ non_console (effects o)
    = [WindowOpen (to_String url) "_blank" "noopener,noreferrer";
       AppendChild link; Click link; RemoveChild link].
Proof.
  intros Ht url Hurl Hopen o link. subst o.
  rewrite navigation_open_dispatch by done.
  unfold Panel.handle_navigation_open. fold url. rewrite Hurl.
  unfold_monad. simpl. by rewrite Hopen.
Qed.

Lemma widget_navigation_blocked_clicks_link_witness :
  let action :=
    widget_action "navigation.open" {[ "url" := JsString "https://example.com" ]} in
  let o := Panel.onAction popup_blocked_env action sample_item ∅ in
  let link := fallback_link "https://example.com" in
  result o = Normal JsUndefined
  ∧ non_console (effects o)
    = [WindowOpen "https://example.com" "_blank" "noopener,noreferrer";
       AppendChild link; Click link; RemoveChild link].
Proof.
  exact (widget_navigation_blocked_clicks_link popup_blocked_env
           (widget_action "navigation.open"
              {[ "url" := JsString "https://example.com" ]})
           sample_item ∅ eq_refl eq_refl eq_refl).
Defined.

(** X15.  The local branches of [widgets.onAction] never assign
    [window.location.href], and the [navigation.open] branch never goes
    to the network. *)
Theorem widget_actions_never_leave_the_page (env : Env) (action : WidgetAction)
    (item : WidgetItem) (s : gset string) :
  let o := Panel.onAction env action item s in
  filter (fun e => is_location_assign e = true) (effects o) = []
  ∧ (action_type action = "navigation.open" →
     filter (fun e => is_fetch e = true) (effects o) = []).
Proof.
  intros o. subst o. unfold Panel.onAction.
  destruct (String.eqb (action_type action) "navigation.open") eqn:Ht.
  - unfold Panel.handle_navigation_open.
    destruct (to_Boolean (optional_prop (payload action) "url"));
      unfold_monad; simpl; [|done].
    by destruct (window_open env _) as [[[]|]|e].
  - split; [|intros H; apply String.eqb_neq in Ht; done].
    destruct (String.eqb (action_type action) "image.download"
              || String.eqb (action_type action) "image_generation.download").
    + unfold Panel.handle_image_download.
      destruct (to_Boolean (optional_prop (payload action) "url"));
        unfold_monad; simpl; [|done].
      destruct (fetch env _) as [r|e]; simpl; [|done].
      destruct (ok r); simpl; [|done].
      destruct (response_blob r) as [b|e]; simpl; [|done].
      by destruct (URL_pathname env _) as [p|e].
    + unfold Panel.handle_relay. unfold_monad. simpl.
      destruct (fetch env _) as [r|e]; simpl; [|done].
      by destruct (response_json r).
Qed.

(** X16.  [widgets.onAction] rejects in one situation only: a
    [navigation.open] action with a truthy url for which [window.open]
    throws; this branch has no [try], so the error goes to the caller.
    The download and relay branches always resolve. *)
Theorem onAction_rejects_only_when_window_open_throws (env : Env)
    (action : WidgetAction) (item : WidgetItem) (s : gset string) (e : JsError) :
  result (Panel.onAction env action item s) = Throw e
  ↔ action_type action = "navigation.open"
    ∧ to_Boolean (optional_prop (payload action) "url") = true
    ∧ window_open env (to_String (optional_prop (payload action) "url")) = Throw e.
Proof.
  unfold Panel.onAction.
  destruct (String.eqb (action_type action) "navigation.open") eqn:Ht.
  - apply String.eqb_eq in Ht. unfold Panel.handle_navigation_open.
    destruct (to_Boolean (optional_prop (payload action) "url"));
      unfold_monad; simpl; [|by split; [|intros (_ & ? & _)]].
    destruct (window_open env _) as [[[]|]|e']; simpl.
    + split; [done|]. by intros (_ & _ & ?).
    + split; [done|]. by intros (_ & _ & ?).
    + split; [by intros [= ->]|]. by intros (_ & _ & [= ->]).
  - apply String.eqb_neq in Ht. split; [|by intros [? _]]. intros H. exfalso.
    revert H.
    destruct (String.eqb (action_type action) "image.download"
              || String.eqb (action_type action) "image_generation.download").
    + unfold Panel.handle_image_download.
      destruct (to_Boolean (optional_prop (payload action) "url"));
        unfold_monad; simpl; [|done].
      destruct (fetch env _) as [r|e']; simpl; [|done].
      destruct (ok r); simpl; [|done].
      destruct (response_blob r) as [b|e']; simpl; [|done].
      by destruct (URL_pathname env _) as [p|e'].
    + unfold Panel.handle_relay. unfold_monad. simpl.
      destruct (fetch env _) as [r|e']; simpl; [|done].
      by destruct (response_json r).
Qed.

Lemma onAction_rejects_only_when_window_open_throws_witness :
  result (Panel.onAction popup_raising_env
            (widget_action "navigation.open"
               {[ "url" := JsString "https://example.com" ]})
            sample_item ∅)
  = Throw {| message := "SyntaxError" |}.
Proof.
  refine (proj2 (onAction_rejects_only_when_window_open_throws popup_raising_env
                   (widget_action "navigation.open"
                      {[ "url" := JsString "https://example.com" ]})
                   sample_item ∅ {| message := "SyntaxError" |}) _).
  done.
Defined.

(** ** Image download *)

Lemma last_segment_go_no_slash (cur s : string) :
  contains_slash cur = false → contains_slash (last_segment_go cur s) = false.
Proof.
  revert cur. induction s as [|c s IH]; intros cur Hcur; [done|]. simpl.
  destruct (Ascii.eqb c "/") eqn:Hc; [by apply IH|]. apply IH.
  clear -Hcur Hc. induction cur as [|d cur IH]; simpl in *; [by rewrite Hc|].
  apply orb_false_iff in Hcur as [-> ?]. by apply IH.
Qed.

Lemma last_segment_go_plain (cur file : string) :
  contains_slash file = false → last_segment_go cur file = cur +:+ file.
Proof.
  revert cur. induction file as [|c file IH]; intros cur H; simpl in *.
  - by rewrite app_empty_r.
  - apply orb_false_iff in H as [-> H]. rewrite IH by done.
    by rewrite app_assoc'.
Qed.

Lemma last_segment_go_after_slash (cur dir file : string) :
  contains_slash file = false →
  last_segment_go cur (dir +:+ "/" +:+ file) = file.
Proof.
  intros H. revert cur. induction dir as [|c dir IH]; intros cur.
  - rewrite app_empty_l.
    change ("/" +:+ file)%string with (String "/" file).
    simpl. by rewrite last_segment_go_plain.
  - rewrite app_cons. simpl. destruct (Ascii.eqb c "/"); apply IH.
Qed.

(** X17.  The name given to the downloaded file is what follows the last
    slash of the path; it never holds a slash and is never empty, the
    default name standing in when the path ends on a slash or is
    empty. *)
Theorem download_filename_is_last_segment (pathname : string) :
  let filename := str_or (last_segment pathname) "generated-image.png" in
  filename ≠ ""
  ∧ contains_slash filename = false
  ∧ (∀ dir file, pathname = dir +:+ "/" +:+ file →
       contains_slash file = false →
       filename = str_or file "generated-image.png").
Proof.
  intros filename. subst filename. unfold str_or, last_segment. split_and!.
  - destruct (String.eqb (last_segment_go "" pathname) "") eqn:H; [done|].
    by apply String.eqb_neq in H.
  - destruct (String.eqb (last_segment_go "" pathname) ""); [done|].
    by apply last_segment_go_no_slash.
  - intros dir file -> H. by rewrite last_segment_go_after_slash.
Qed.

(** X18.  A download action without a usable url is logged as an error and
    dropped: nothing is fetched, no alert is raised, and the handler
    resolves with [undefined]. *)
Theorem image_download_without_url (env : Env) (action : WidgetAction)
    (item : WidgetItem) (s : gset string) :
  action_type action = "image.download"
  ∨ action_type action = "image_generation.download" →
  to_Boolean (optional_prop (payload action) "url") = false →
  let o := Panel.onAction env action item s in
  result o = Normal JsUndefined
  ∧ non_console (effects o) = []
  ∧ Console Error "[Widget] No URL provided" ∈ effects o.
Proof.
  intros Ht Hurl o. subst o. rewrite image_download_dispatch by done.
  unfold Panel.handle_image_download. unfold_monad. simpl. rewrite Hurl. simpl.
  split_and!; [done..|]. by repeat constructor.
Qed.

Lemma image_download_without_url_witness :
  let o := Panel.onAction offline_env
             (widget_action "image_generation.download" {[ "url" := JsString "" ]})
             sample_item ∅ in
  result o = Normal JsUndefined
  ∧ non_console (effects o) = []
  ∧ Console Error "[Widget] No URL provided" ∈ effects o.
Proof.
  exact (image_download_without_url offline_env
           (widget_action "image_generation.download" {[ "url" := JsString "" ]})
           sample_item ∅ (or_intror eq_refl) eq_refl).
Defined.

(** X19.  A download that works: one request for the url, an object URL for
    the blob, a link carrying that object URL and the file name,
    appended, clicked and removed, and the object URL revoked at the
    end.  No alert, and the handler resolves with [undefined]. *)
Theorem image_download_success (env : Env) (action : WidgetAction)
    (item : WidgetItem) (s : gset string) (r : Response) (b : Blob)
    (pathname : string) :
  action_type action = "image.download"
  ∨ action_type action = "image_generation.download" →
  let url := optional_prop (payload action) "url" in
  to_Boolean url = true →
  fetch env (image_request url) = Normal r →
  ok r = true →
  response_blob r = Normal b →
  URL_pathname env (to_String url) = Normal pathname →
  let o := Panel.onAction env action item s in
  let link := download_link (createObjectURL env b)
                (str_or (last_segment pathname) "generated-image.png") in
  result o = Normal JsUndefined
  ∧ non_console (effects o)
    = [Fetch (image_request url); CreateObjectURL b;
       AppendChild link; Click link; RemoveChild link;
       RevokeObjectURL (createObjectURL env b)].
Proof.
  intros Ht url Hurl Hfetch Hok Hblob Hpath o link. subst o.
  rewrite image_download_dispatch by done.
  unfold Panel.handle_image_download. fold url.
  unfold_monad. simpl. rewrite Hurl. simpl. rewrite Hfetch. simpl.
  rewrite Hok. simpl. rewrite Hblob. simpl. by rewrite Hpath.
Qed.

Lemma image_download_success_witness :
  let action :=
    widget_action "image.download"
      {[ "url" := JsString "https://cdn.example.com/img/cat.png" ]} in
  let o := Panel.onAction friendly_env action sample_item ∅ in
  let link := download_link "blob:1" "cat.png" in
  result o = Normal JsUndefined
  ∧ non_console (effects o)
    = [Fetch (image_request (JsString "https://cdn.example.com/img/cat.png"));
       CreateObjectURL {| blob_size := 1024 |};
       AppendChild link; Click link; RemoveChild link;
       RevokeObjectURL "blob:1"].
Proof.
  exact (image_download_success friendly_env
           (widget_action "image.download"
              {[ "url" := JsString "https://cdn.example.com/img/cat.png" ]})
           sample_item ∅ ok_response {| blob_size := 1024 |} "/img/cat.png"
           (or_introl eq_refl) eq_refl eq_refl eq_refl eq_refl eq_refl).
Defined.

(** X20.  When the image has been fetched but [new URL(url)] throws, as for a
    url without a scheme, the user gets the failure alert although the
    request succeeded: nothing is clicked, and the object URL made for
    the blob is not revoked. *)
Theorem image_download_unparsable_url (env : Env) (action : WidgetAction)
    (item : WidgetItem) (s : gset string) (r : Response) (b : Blob)
    (e : JsError) :
  action_type action = "image.download"
  ∨ action_type action = "image_generation.download" →
  let url := optional_prop (payload action) "url" in
  to_Boolean url = true →
  fetch env (image_request url) = Normal r →
  ok r = true →
  response_blob r = Normal b →
  URL_pathname env (to_String url) = Throw e →
  let o := Panel.onAction env action item s in
  result o = Normal JsUndefined
  ∧ non_console (effects o)
    = [Fetch (image_request url); CreateObjectURL b;
       Alert Panel.download_failed_notice].
Proof.
  intros Ht url Hurl Hfetch Hok Hblob Hpath o. subst o.
  rewrite image_download_dispatch by done.
  unfold Panel.handle_image_download. fold url.
  unfold_monad. simpl. rewrite Hurl. simpl. rewrite Hfetch. simpl.
  rewrite Hok. simpl. rewrite Hblob. simpl. by rewrite Hpath.
Qed.

Lemma image_download_unparsable_url_witness :
  let action :=
    widget_action "image.download" {[ "url" := JsString "/img/cat.png" ]} in
  let o := Panel.onAction relative_url_env action sample_item ∅ in
  result o = Normal JsUndefined
  ∧ non_console (effects o)
    = [Fetch (image_request (JsString "/img/cat.png"));
       CreateObjectURL {| blob_size := 1024 |};
       Alert Panel.download_failed_notice].
Proof.
  exact (image_download_unparsable_url relative_url_env
           (widget_action "image.download" {[ "url" := JsString "/img/cat.png" ]})
           sample_item ∅ ok_response {| blob_size := 1024 |}
           {| message := "Invalid URL" |}
           (or_introl eq_refl) eq_refl eq_refl eq_refl eq_refl eq_refl).
Defined.

(** ** Relay to the backend *)

(** X21.  An action that is neither a navigation nor a download costs exactly
    one request, the POST of the action and the item id; when the request
    is rejected, or its body is no JSON, the handler resolves with
    [{ success: false, error }] carrying the message of what was
    thrown. *)
Theorem relay_failure_is_reported (env : Env) (action : WidgetAction)
    (item : WidgetItem) (s : gset string) :
  action_type action ≠ "navigation.open" →
  action_type action ≠ "image.download" →
  action_type action ≠ "image_generation.download" →
  let o := Panel.onAction env action item s in
  non_console (effects o) = [Fetch (relay_request action item)]
  ∧ (∀ e, fetch env (relay_request action item) = Throw e
          ∨ (∃ r, fetch env (relay_request action item) = Normal r
                  ∧ response_json r = Throw e) →
          result o = Normal (relay_failure e)
          ∧ is_failed_result (relay_failure e) = true
          ∧ optional_prop (relay_failure e) "error" = JsString (message e)).
Proof.
  intros H1 H2 H3 o. subst o. split.
  - rewrite relay_dispatch by done. unfold Panel.handle_relay.
    unfold_monad. simpl.
    destruct (fetch env (relay_request action item)) as [r|e]; simpl; [|done].
    by destruct (response_json r).
  - intros e He. rewrite relay_result by done. split; [|done].
    destruct He as [->|(r & -> & ->)]; done.
Qed.

Lemma relay_failure_is_reported_witness :
  let action := widget_action "facts.save" {[ "fact_id" := JsString "f1" ]} in
  let o := Panel.onAction bad_gateway_env action sample_item ∅ in
  non_console (effects o) = [Fetch (relay_request action sample_item)]
  ∧ result o
    = Normal (relay_failure {| message := "Unexpected token < in JSON" |}).
Proof.
  intros action o.
  pose proof (relay_failure_is_reported bad_gateway_env action sample_item ∅)
    as H.
  destruct H as [H1 H2]; [discriminate..|]. split; [exact H1|].
  refine (proj1 (H2 {| message := "Unexpected token < in JSON" |} _)).
  right. by exists html_response.
Defined.

(** ** The older widget handler *)

(** X22.  The older [widgets.onAction] never rejects: all of it sits inside
    the [try]. *)
Theorem legacy_onAction_never_rejects (env : Env) (action : WidgetAction)
    (item : WidgetItem) (s : gset string) :
  ∃ v, result (Legacy.onAction env action item s) = Normal v.
Proof.
  revert s. change (resolves (Legacy.onAction env action item)).
  unfold Legacy.onAction. solve_resolves.
Qed.

(** X23.  In the older panel a [navigation.open] action reaches the browser
    only after the backend has answered with JSON: a failed relay opens
    nothing.  And since [window.open] is inside the same [try], a throw
    there replaces the answer of the backend by a failure. *)
Theorem legacy_navigation_open_follows_relay (env : Env) (action : WidgetAction)
    (item : WidgetItem) (s : gset string) :
  action_type action = "navigation.open" →
  let url := optional_prop (payload action) "url" in
  to_Boolean url = true →
  let o := Legacy.onAction env action item s in
  let opened := WindowOpen (to_String url) "_blank" "noopener,noreferrer" in
  match fetch env (relay_request action item) with
  | Normal r =>
      match response_json r with
      | Normal v =>
          non_console (effects o) = [Fetch (relay_request action item); opened]
          ∧ result o = match window_open env (to_String url) with
                       | Normal _ => Normal v
                       | Throw e => Normal (relay_failure e)
                       end
      | Throw e =>
          non_console (effects o) = [Fetch (relay_request action item)]
          ∧ result o = Normal (relay_failure e)
      end
  | Throw e =>
      non_console (effects o) = [Fetch (relay_request action item)]
      ∧ result o = Normal (relay_failure e)
  end.
Proof.
  intros Ht url Hurl o opened. subst o opened. unfold Legacy.onAction.
  rewrite Ht. fold url. rewrite Hurl. unfold_monad. simpl.
  destruct (fetch env (relay_request action item)) as [r|e]; simpl; [|done].
  destruct (response_json r) as [v|e]; simpl; [|done].
  by destruct (window_open env (to_String url)) as [w|e].
Qed.

Lemma legacy_navigation_open_follows_relay_witness :
  let action :=
    widget_action "navigation.open" {[ "url" := JsString "https://example.com" ]} in
  let o := Legacy.onAction offline_env action sample_item ∅ in
  non_console (effects o) = [Fetch (relay_request action sample_item)]
  ∧ result o = Normal (relay_failure {| message := "Failed to fetch" |}).
Proof.
  exact (legacy_navigation_open_follows_relay offline_env
           (widget_action "navigation.open"
              {[ "url" := JsString "https://example.com" ]})
           sample_item ∅ eq_refl eq_refl).
Defined.

(** ** Sessions, further *)

Lemma handle_record_fact_outcome (env : Env) (invocation : ToolInvocation)
    (s : gset string) :
  name invocation = "record_fact" →
  converts (prop (params invocation) "fact_id" ?? JsString "") = true →
  converts (prop (params invocation) "fact_text" ?? JsString "") = true →
  let id := to_String (prop (params invocation) "fact_id" ?? JsString "") in
  let text := to_String (prop (params invocation) "fact_text" ?? JsString "") in
  id ≠ "" → id ∉ s →
  facts (handle env (ClientTool invocation) s) = {[ id ]} ∪ s
  ∧ effects (handle env (ClientTool invocation) s)
    = [SetAdd id;
       WidgetActionCall {| fa_type := "save"; factId := id;
                           factText := trim (replace_ws text) |}].
Proof.
  intros Hn Hcid Hctext id text Hid Hin. cbn [handle].
  destruct (discard_result (Panel.onClientTool env invocation) s) as [-> ->].
  rewrite record_fact_dispatch by done.
  by rewrite handle_record_fact_save.
Qed.

(** X24.  The first text wins.  Once a fact has been recorded, by an
    invocation whose params convert and whose id is non-empty and new,
    whatever comes later in the same thread under the same id, also with
    another text, is dropped: over the whole stretch the persistence
    callback sees the id once, with the normalised text of the first
    invocation. *)
Theorem first_record_wins (env : Env) (invocation : ToolInvocation)
    (rest : list (Env * SessionEvent)) (s : gset string) :
  name invocation = "record_fact" →
  converts (prop (params invocation) "fact_id" ?? JsString "") = true →
  converts (prop (params invocation) "fact_text" ?? JsString "") = true →
  let id := to_String (prop (params invocation) "fact_id" ?? JsString "") in
  let text := to_String (prop (params invocation) "fact_text" ?? JsString "") in
  id ≠ "" → id ∉ s →
  no_thread_change rest →
  filter (fun e => is_save_of id e = true)
    (run ((env, ClientTool invocation) :: rest) s).2
  = [WidgetActionCall {| fa_type := "save"; factId := id;
                         factText := trim (replace_ws text) |}].
Proof.
  intros Hn Hcid Hctext id text Hid Hin Hrest. cbn [run snd].
  destruct (handle_record_fact_outcome env invocation s Hn Hcid Hctext Hid Hin)
    as [-> ->].
  fold id text. rewrite filter_app.
  assert (filter (fun e => is_save_of id e = true)
            (run rest ({[ id ]} ∪ s)).2 = []) as ->.
  { apply length_zero_iff_nil.
    apply (save_count_session id rest Hrest ({[ id ]} ∪ s)).
    apply elem_of_union_l. by apply elem_of_singleton. }
  rewrite app_nil_r, !filter_cons, filter_nil. simpl.
  by rewrite String.eqb_refl.
Qed.

Lemma first_record_wins_witness :
  let first := record_fact_invocation (JsString "f1") (JsString "likes  tea") in
  let second := record_fact_invocation (JsString "f1") (JsString "likes coffee") in
  filter (fun e => is_save_of "f1" e = true)
    (run [(friendly_env, ClientTool first); (friendly_env, ClientTool second)] ∅).2
  = [WidgetActionCall {| fa_type := "save"; factId := "f1";
                         factText := "likes tea" |}].
Proof.
  intros first second.
  refine (first_record_wins friendly_env first
            [(friendly_env, ClientTool second)] ∅ eq_refl eq_refl eq_refl _ _ _).
  - discriminate.
  - apply not_elem_of_empty.
  - by repeat constructor.
Defined.

(** X25.  Within one thread the set holds exactly what it held at the start
    and the ids that went to the persistence callback since. *)
Theorem facts_are_initial_plus_saved (evs : list (Env * SessionEvent))
    (s : gset string) :
  no_thread_change evs →
  ∀ id, id ∈ (run evs s).1 ↔ id ∈ s ∨ save_count id (run evs s).2 = 1.
Proof.
  intros Hevs. revert s.
  induction Hevs as [|[env ev] evs Hev Hrest IH]; intros s id.
  - simpl. split; [by left|]. intros [?|H]; [done|]. by unfold save_count in H.
  - cbn [run fst snd]. rewrite save_count_app.
    destruct (handle_cases env ev s Hev)
      as [[Hs Hq]|(id' & text & Hne & Hin & Hs & Ht)].
    + rewrite Hs, (save_count_quiet id _ Hq). apply IH.
    + rewrite Hs, Ht, save_count_record. rewrite IH.
      destruct (save_count_session id evs Hrest ({[ id' ]} ∪ s)) as [Hle Hzero].
      destruct (decide (id' = id)) as [->|Hneq].
      * split.
        -- intros _. right. rewrite Hzero; [done|].
           apply elem_of_union_l. by apply elem_of_singleton.
        -- intros _. left. apply elem_of_union_l. by apply elem_of_singleton.
      * rewrite elem_of_union, elem_of_singleton. simpl. split.
        -- intros [[->|?]|?]; [done|by left|by right].
        -- intros [?|?]; [left; by right|by right].
Qed.

Lemma facts_are_initial_plus_saved_witness :
  let evs :=
    [(friendly_env,
      ClientTool (record_fact_invocation (JsString "f1") (JsString "likes tea")));
     (friendly_env,
      ClientTool (switch_theme_invocation (JsString "dark")))] in
  no_thread_change evs
  ∧ ("f2" ∈ (run evs {[ "f0" ]}).1
     ↔ "f2" ∈ ({[ "f0" ]} : gset string)
       ∨ save_count "f2" (run evs {[ "f0" ]}).2 = 1).
Proof.
  intros evs.
  assert (H : no_thread_change evs) by (by repeat constructor).
  split; [exact H|].
  exact (facts_are_initial_plus_saved evs {[ "f0" ]} H "f2").
Defined.

(** ** The development flag *)

(** X26.  [import.meta.env.DEV] decides about [console.debug] lines and about
    nothing else: with the flag set either way, a tool invocation
    resolves with the same result, leaves the same set, and does the
    same things in the same order. *)
Theorem dev_flag_only_adds_debug_lines (env : Env) (b : bool)
    (invocation : ToolInvocation) (s : gset string) :
  let o1 := Panel.onClientTool env invocation s in
  let o2 := Panel.onClientTool (with_DEV b env) invocation s in
  result o1 = result o2
  ∧ facts o1 = facts o2
  ∧ non_debug (effects o1) = non_debug (effects o2).
Proof.
  intros o1 o2. subst o1 o2. unfold Panel.onClientTool.
  destruct (String.eqb (name invocation) "switch_theme").
  { unfold handle_switch_theme.
    destruct (strict_eq_str _ "light" || strict_eq_str _ "dark"); [|done].
    unfold_monad. simpl. by destruct (DEV env), b. }
  destruct (String.eqb (name invocation) "record_fact"); [done|].
  destruct (String.eqb (name invocation) "navigate_to_url"); [|done].
  destruct (converts (prop (params invocation) "url" ?? JsString "")) eqn:Hcu;
    [|by rewrite !(proj1 (navigate_throws _ invocation s (or_introl Hcu)))].
  destruct (converts (prop (params invocation) "description" ?? JsString ""))
    eqn:Hcd;
    [|by rewrite !(proj1 (navigate_throws _ invocation s (or_intror Hcd)))].
  unfold Panel.handle_navigate_to_url. coerce.
  destruct (negb (to_Boolean (JsString _))); [done|].
  destruct (to_Boolean (prop (params invocation) "open_in_new_tab" ?? JsBool true));
    unfold_monad; simpl.
  - destruct (window_open env _) as [[[]|]|e]; simpl.
    + by destruct (DEV env), b.
    + destruct (location_assign env _) as [[]|e]; by destruct (DEV env), b.
    + by destruct (DEV env), b.
  - destruct (location_assign env _) as [[]|e]; by destruct (DEV env), b.
Qed.

(** ** Whole sessions and the two copies *)

Lemma save_count_whole_session (id : string) (evs : list (Env * SessionEvent)) :
  ∀ s, save_count id (run evs s).2 ≤ 1 + thread_changes evs
       ∧ (id ∈ s → save_count id (run evs s).2 ≤ thread_changes evs).
Proof.
  unfold thread_changes.
  induction evs as [|[env ev] evs IH]; intros s.
  - unfold save_count. simpl. split; [lia|intros _; lia].
  - cbn [run snd]. rewrite save_count_app, filter_cons. cbn [snd].
    destruct (is_thread_change ev) eqn:Hev.
    + destruct ev; try done. rewrite decide_True by done.
      cbn [handle]. rewrite onThreadChange_outcome. cbn [facts effects length].
      destruct (IH ∅) as [IH1 _].
      assert (save_count id [SetClear] = 0) as -> by done.
      split; [lia|intros _; lia].
    + rewrite decide_False by done.
      destruct (handle_cases env ev s Hev)
        as [[Hs Hq]|(id' & text & Hne & Hin & Hs & Ht)].
      * rewrite Hs, (save_count_quiet id _ Hq). apply IH.
      * rewrite Hs, Ht, save_count_record.
        destruct (IH ({[ id' ]} ∪ s)) as [IH1 IH2].
        destruct (decide (id' = id)) as [->|Hneq].
        -- split; [|done].
           assert (id ∈ ({[ id ]} ∪ s : gset string))
             by (apply elem_of_union_l; by apply elem_of_singleton).
           specialize (IH2 H). lia.
        -- split; [lia|]. intros Hid.
           assert (id ∈ ({[ id' ]} ∪ s : gset string))
             by (by apply elem_of_union_r).
           specialize (IH2 H). lia.
Qed.

(** X27.  Over a whole session, thread changes included, a fact id goes to the
    persistence callback at most once per thread: at most once more than
    the thread has changed, and no more often than it has changed when
    the id was in the set from the start. *)
Theorem saved_at_most_once_per_thread (id : string)
    (evs : list (Env * SessionEvent)) (s : gset string) :
  save_count id (run evs s).2 ≤ 1 + thread_changes evs
  ∧ (id ∈ s → save_count id (run evs s).2 ≤ thread_changes evs).
Proof. apply save_count_whole_session. Qed.

(** X28.  The two copies of [onClientTool] part ways only where a new tab is
    asked for.  On every other invocation, that is another tool, a
    missing url, or [open_in_new_tab] present and falsy, they resolve
    with the same result, leave the same set and, console lines apart,
    do the same things. *)
Theorem panels_agree_outside_new_tab (env : Env) (invocation : ToolInvocation)
    (s : gset string) :
  name invocation ≠ "navigate_to_url"
  ∨ to_String (prop (params invocation) "url" ?? JsString "") = ""
  ∨ to_Boolean (prop (params invocation) "open_in_new_tab" ?? JsBool true) = false →
  let o1 := Panel.onClientTool env invocation s in
  let o2 := Legacy.onClientTool env invocation s in
  result o1 = result o2
  ∧ facts o1 = facts o2
  ∧ non_console (effects o1) = non_console (effects o2).
Proof.
  intros H o1 o2. subst o1 o2. unfold Panel.onClientTool, Legacy.onClientTool.
  destruct (String.eqb (name invocation) "switch_theme"); [done|].
  destruct (String.eqb (name invocation) "record_fact"); [done|].
  destruct (String.eqb (name invocation) "navigate_to_url") eqn:Hn; [|done].
  apply String.eqb_eq in Hn.
  destruct (converts (prop (params invocation) "url" ?? JsString "")) eqn:Hcu;
    [|by destruct (navigate_throws env invocation s (or_introl Hcu))
         as [-> ->]].
  destruct (converts (prop (params invocation) "description" ?? JsString ""))
    eqn:Hcd;
    [|by destruct (navigate_throws env invocation s (or_intror Hcd))
         as [-> ->]].
  unfold Panel.handle_navigate_to_url, Legacy.handle_navigate_to_url. coerce.
  destruct H as [H|[H|H]]; [done|by rewrite H|].
  destruct (negb (to_Boolean (JsString _))); [done|]. rewrite H.
  unfold_monad. simpl.
  destruct (location_assign env _) as [[]|e]; by destruct (DEV env).
Qed.

Lemma panels_agree_outside_new_tab_witness :
  let invocation :=
    navigate_invocation (JsString "https://example.com") (JsNumber 0) in
  let o1 := Panel.onClientTool popup_blocked_raising_env invocation ∅ in
  let o2 := Legacy.onClientTool popup_blocked_raising_env invocation ∅ in
  result o1 = result o2
  ∧ facts o1 = facts o2
  ∧ non_console (effects o1) = non_console (effects o2).
Proof.
  refine (panels_agree_outside_new_tab popup_blocked_raising_env
            (navigate_invocation (JsString "https://example.com") (JsNumber 0))
            ∅ _).
  right; right. reflexivity.
Defined.
